(** * resultdownloader: a shallow embedding of [resultdownloader.py]

    The script scrapes race-result tables from HTML pages, follows
    server-side pagination, merges and de-duplicates the rows, cleans the
    [Name] column and projects a fixed list of columns.

    Conventions of the embedding.
    - A Python [str] is the list of its Unicode code points ([list N]);
      literals are written [py "..."], decoding the UTF-8 bytes of the
      Rocq string.
    - The parsers of pandas and BeautifulSoup and the HTTP client are
      external collaborators: they appear as the variables of the section
      [Scraper].
    - A [DataFrame] is a list of column labels and a list of rows of cells;
      a cell holds a string, an integer, a float or [NaN], the missing
      value of pandas.  A column has the dtype of its values, and
      [pd.concat] turns the integers of a column into floats where the
      merged column holds a float or a missing value. *)

From Stdlib Require Import ZArith NArith Ascii String List Lia Bool DecimalString.
From stdpp Require Import base decidable option list numbers countable gmap.

Import ListNotations.
Local Open Scope N_scope.

(** ** Python strings *)

Abbreviation pystr := (list N).

(** Decoding of the UTF-8 bytes of a literal into code points. *)
Fixpoint utf8_decode (bs : list N) : pystr :=
  match bs with
  | [] => []
  | b0 :: t0 =>
    if b0 <? 128 then b0 :: utf8_decode t0
    else match t0 with
      | [] => []
      | b1 :: t1 =>
        if b0 <? 224 then ((b0 - 192) * 64 + (b1 - 128)) :: utf8_decode t1
        else match t1 with
          | [] => []
          | b2 :: t2 =>
            if b0 <? 240
            then ((b0 - 224) * 4096 + (b1 - 128) * 64 + (b2 - 128))
                   :: utf8_decode t2
            else match t2 with
              | [] => []
              | b3 :: t3 =>
                ((b0 - 240) * 262144 + (b1 - 128) * 4096
                 + (b2 - 128) * 64 + (b3 - 128)) :: utf8_decode t3
              end
          end
      end
  end.

Definition py (s : string) : pystr :=
  utf8_decode (List.map N_of_ascii (list_ascii_of_string s)).

(** [str.isspace] on one code point: the table of CPython's
    [_PyUnicode_IsWhitespace], which [str.strip()] and the class [\s] of
    [re] on [str] patterns both use. *)
Definition py_isspace (c : N) : bool :=
  ((9 <=? c) && (c <=? 13)) || ((28 <=? c) && (c <=? 32))
  || (c =? 133) || (c =? 160) || (c =? 5760)
  || ((8192 <=? c) && (c <=? 8202))
  || (c =? 8232) || (c =? 8233) || (c =? 8239) || (c =? 8287)
  || (c =? 12288).

Fixpoint drop_while {A} (p : A -> bool) (l : list A) : list A :=
  match l with
  | [] => []
  | x :: l' => if p x then drop_while p l' else l
  end.

Definition lstrip (s : pystr) : pystr := drop_while py_isspace s.
Definition rstrip (s : pystr) : pystr := rev (drop_while py_isspace (rev s)).

(** [s.strip()] *)
Definition strip (s : pystr) : pystr := rstrip (lstrip s).

(** [str.lower] on one code point.  The table is exact for every code
    point whose lower-case form has a code point below U+0100 (the ASCII
    and Latin-1 capitals, U+0130, U+0178, U+1E9E, U+212A and U+212B); any
    other code point is left as it is, which cannot change a comparison
    with the ASCII and Latin-1 phrases this program compares against. *)
Definition lower_char (c : N) : pystr :=
  if (65 <=? c) && (c <=? 90) then [c + 32]
  else if (192 <=? c) && (c <=? 222) && negb (c =? 215) then [c + 32]
  else if c =? 304 then [105; 775]
  else if c =? 376 then [255]
  else if c =? 7838 then [223]
  else if c =? 8490 then [107]
  else if c =? 8491 then [229]
  else [c].

(** [s.lower()] *)
Definition lower (s : pystr) : pystr := flat_map lower_char s.

Fixpoint starts_with (p s : pystr) : bool :=
  match p, s with
  | [], _ => true
  | _ :: _, [] => false
  | a :: p', b :: s' => (a =? b) && starts_with p' s'
  end.

(** [t in s] on strings: [t] occurs in [s] as a substring. *)
Fixpoint py_in (t s : pystr) : bool :=
  starts_with t s ||
  match s with
  | [] => false
  | _ :: s' => py_in t s'
  end.

(** [x in xs] on a list or tuple of strings. *)
Definition str_in (x : pystr) (xs : list pystr) : bool :=
  existsb (fun y => bool_decide (x = y)) xs.

(** a list or string as a condition: it is not empty *)
Definition nonempty {A} (l : list A) : bool :=
  match l with [] => false | _ => true end.

(** [str(n)] for a natural number. *)
Definition py_str_nat (n : nat) : pystr :=
  py (NilZero.string_of_uint (Nat.to_uint n)).

(** [str(z)] for an integer. *)
Definition py_str_Z (z : Z) : pystr :=
  py (NilZero.string_of_int (Z.to_int z)).

(** ** Integers as floats

    [float(a)] for an integer [0 <= a] of an [int64] column is the nearest
    float64, a tie going to the even mantissa of 53 bits; it is again an
    integer. *)
Definition nearest_float (a : Z) : Z :=
  if (a <? 2 ^ 53)%Z then a
  else
    let shift := (Z.log2 a + 1 - 53)%Z in
    let q := Z.shiftr a shift in
    let rem := (a - Z.shiftl q shift)%Z in
    let half := Z.shiftl 1 (shift - 1) in
    let q' := if (half <? rem)%Z || ((rem =? half)%Z && Z.odd q)
              then (q + 1)%Z else q in
    Z.shiftl q' shift.

(** The digits that [repr] prints for the float [v] of [k] digits: the
    number of fewest significant digits, from [n] on, that [float] reads
    back as [v], and of these the one nearest to [v]. *)
Fixpoint shortest_digits (fuel : nat) (v k n : Z) : Z :=
  match fuel with
  | O => v
  | S fuel' =>
    if (k <=? n)%Z then v
    else
      let scale := (10 ^ (k - n))%Z in
      let lo := (v / scale)%Z in
      let reads_back d :=
        (d <? 10 ^ n)%Z && (nearest_float (d * scale) =? v)%Z in
      match reads_back lo, reads_back (lo + 1)%Z with
      | true, true =>
        if (v - lo * scale <=? (lo + 1) * scale - v)%Z
        then (lo * scale)%Z else ((lo + 1) * scale)%Z
      | true, false => (lo * scale)%Z
      | false, true => ((lo + 1) * scale)%Z
      | false, false => shortest_digits fuel' v k (n + 1)%Z
      end
  end.

Definition rstrip_zeros (s : pystr) : pystr :=
  rev (drop_while (fun c => c =? 48) (rev s)).

(** [str(float(z))], which is [repr(float(z))]: up to 16 digits are
    printed with [.0] after them, more digits in the exponent form. *)
Definition float_str (z : Z) : pystr :=
  let v := nearest_float (Z.abs z) in
  let k := Z.of_nat (length (py_str_Z v)) in
  let ds := py_str_Z (shortest_digits 17 v k 1) in
  let body :=
    if (16 <? length ds)%nat
    then match rstrip_zeros ds with
         | [] => ds
         | d :: more =>
           d :: (if nonempty more then py "." ++ more else [])
             ++ py "e+" ++ py_str_nat (length ds - 1)
         end
    else ds ++ py ".0" in
  (if (z <? 0)%Z then py "-" else []) ++ body.

(** ** [urllib.parse.urljoin]

    The link resolution of the standard library (CPython 3.11,
    [Lib/urllib/parse.py]), function by function.  [urlsplit] raises
    [ValueError] on a malformed bracketed host and on a network location
    that gains a delimiter under NFKC normalisation; those two checks are
    not part of the model, which is total. *)

Module Url.

Definition slash : N := 47.
Definition colon : N := 58.
Definition semicolon : N := 59.
Definition qmark : N := 63.
Definition hash : N := 35.

(** [s.split(c, 1)] when [c] occurs in [s]: the text before the first [c]
    and the text after it. *)
Fixpoint split_once (c : N) (s : pystr) : option (pystr * pystr) :=
  match s with
  | [] => None
  | x :: s' =>
    if x =? c then Some ([], s')
    else match split_once c s' with
         | Some (a, b) => Some (x :: a, b)
         | None => None
         end
  end.

(** [s.split(c)] *)
Fixpoint split_on (c : N) (s : pystr) : list pystr :=
  match s with
  | [] => [[]]
  | x :: s' =>
    if x =? c then [] :: split_on c s'
    else match split_on c s' with
         | seg :: segs => (x :: seg) :: segs
         | [] => [[x]]
         end
  end.

(** [c.join(segs)] *)
Fixpoint join (c : N) (segs : list pystr) : pystr :=
  match segs with
  | [] => []
  | [seg] => seg
  | seg :: segs' => seg ++ c :: join c segs'
  end.

Definition uses_relative : list pystr :=
  List.map py [""; "ftp"; "http"; "gopher"; "nntp"; "imap";
               "wais"; "file"; "https"; "shttp"; "mms";
               "prospero"; "rtsp"; "rtspu"; "sftp";
               "svn"; "svn+ssh"; "ws"; "wss"]%string.

Definition uses_netloc : list pystr :=
  List.map py [""; "ftp"; "http"; "gopher"; "nntp"; "telnet";
               "imap"; "wais"; "file"; "mms"; "https"; "shttp";
               "snews"; "prospero"; "rtsp"; "rtspu"; "rsync";
               "svn"; "svn+ssh"; "sftp"; "nfs"; "git"; "git+ssh";
               "ws"; "wss"]%string.

Definition uses_params : list pystr :=
  List.map py [""; "ftp"; "hdl"; "prospero"; "http"; "imap";
               "https"; "shttp"; "rtsp"; "rtspu"; "sip"; "sips";
               "mms"; "sftp"; "tel"]%string.

Definition is_ascii_alpha (c : N) : bool :=
  ((65 <=? c) && (c <=? 90)) || ((97 <=? c) && (c <=? 122)).

(** membership in [scheme_chars] *)
Definition is_scheme_char (c : N) : bool :=
  is_ascii_alpha c || ((48 <=? c) && (c <=? 57))
  || (c =? 43) || (c =? 45) || (c =? 46).

(** membership in [_WHATWG_C0_CONTROL_OR_SPACE] *)
Definition is_c0_or_space (c : N) : bool := c <=? 32.

(** membership in [_UNSAFE_URL_BYTES_TO_REMOVE] *)
Definition is_unsafe_byte (c : N) : bool := (c =? 9) || (c =? 13) || (c =? 10).

Definition remove_unsafe (s : pystr) : pystr :=
  List.filter (fun c => negb (is_unsafe_byte c)) s.

Record SplitResult := mkSplit {
  sr_scheme : pystr; sr_netloc : pystr; sr_path : pystr;
  sr_query : pystr; sr_fragment : pystr }.

Record ParseResult := mkParse {
  pr_scheme : pystr; pr_netloc : pystr; pr_path : pystr;
  pr_params : pystr; pr_query : pystr; pr_fragment : pystr }.

(** the scheme detection of [urlsplit]: [i = url.find(':')] and the
    [for ... else] over [url[:i]] *)
Definition split_scheme (scheme url : pystr) : pystr * pystr :=
  match split_once colon url with
  | Some (c0 :: pre, post) =>
    if is_ascii_alpha c0 && forallb is_scheme_char (c0 :: pre)
    then (lower (c0 :: pre), post)
    else (scheme, url)
  | _ => (scheme, url)
  end.

Definition is_netloc_delim (c : N) : bool :=
  (c =? slash) || (c =? qmark) || (c =? hash).

Fixpoint take_until {A} (p : A -> bool) (l : list A) : list A :=
  match l with
  | [] => []
  | x :: l' => if p x then [] else x :: take_until p l'
  end.

Fixpoint drop_until {A} (p : A -> bool) (l : list A) : list A :=
  match l with
  | [] => []
  | x :: l' => if p x then l else drop_until p l'
  end.

(** [_splitnetloc(url, 2)] *)
Definition splitnetloc2 (url : pystr) : pystr * pystr :=
  let rest := drop 2 url in
  (take_until is_netloc_delim rest, drop_until is_netloc_delim rest).

Definition urlsplit (url0 scheme0 : pystr) : SplitResult :=
  let url := remove_unsafe (drop_while is_c0_or_space url0) in
  let scheme :=
    remove_unsafe
      (rev (drop_while is_c0_or_space
              (rev (drop_while is_c0_or_space scheme0)))) in
  let '(scheme, url) := split_scheme scheme url in
  let '(netloc, url) :=
    match url with
    | 47 :: 47 :: _ => splitnetloc2 url
    | _ => ([], url)
    end in
  let '(url, fragment) :=
    match split_once hash url with
    | Some (u, f) => (u, f)
    | None => (url, [])
    end in
  let '(url, query) :=
    match split_once qmark url with
    | Some (u, q) => (u, q)
    | None => (url, [])
    end in
  mkSplit scheme netloc url query fragment.

(** [_splitparams] *)
Definition splitparams (url : pystr) : pystr * pystr :=
  if existsb (N.eqb slash) url then
    (* i = url.find(';', url.rfind('/')) *)
    match split_once slash (rev url) with
    | Some (rtail, rhead) =>
      let head := rev rhead in
      let tail := slash :: rev rtail in
      match split_once semicolon tail with
      | Some (a, b) => (head ++ a, b)
      | None => (url, [])
      end
    | None => (url, [])
    end
  else
    match split_once semicolon url with
    | Some (a, b) => (a, b)
    | None => (removelast url, url)      (* url[:-1], url[0:] *)
    end.

Definition urlparse (url scheme : pystr) : ParseResult :=
  let r := urlsplit url scheme in
  let '(path, params) :=
    if str_in (sr_scheme r) uses_params
       && existsb (N.eqb semicolon) (sr_path r)
    then splitparams (sr_path r)
    else (sr_path r, []) in
  mkParse (sr_scheme r) (sr_netloc r) path params
          (sr_query r) (sr_fragment r).

Definition urlunsplit (scheme netloc url query fragment : pystr) : pystr :=
  let url :=
    if nonempty netloc
       || (nonempty scheme && str_in scheme uses_netloc
           && negb (bool_decide (take 2 url = [slash; slash])))
    then
      let url :=
        if nonempty url && negb (bool_decide (take 1 url = [slash]))
        then slash :: url else url in
      [slash; slash] ++ netloc ++ url
    else url in
  let url := if nonempty scheme then scheme ++ colon :: url else url in
  let url := if nonempty query then url ++ qmark :: query else url in
  let url := if nonempty fragment then url ++ hash :: fragment else url in
  url.

Definition urlunparse (scheme netloc url params query fragment : pystr)
  : pystr :=
  let url := if nonempty params then url ++ semicolon :: params else url in
  urlunsplit scheme netloc url query fragment.

(** [segments[1:-1] = filter(None, segments[1:-1])] *)
Definition filter_middle (segments : list pystr) : list pystr :=
  match segments with
  | [] => []
  | [s] => [s]
  | s :: rest =>
    s :: List.filter nonempty (removelast rest) ++ [List.last rest []]
  end.

Definition dot : pystr := [46].
Definition dotdot : pystr := [46; 46].

(** one turn of the loop over [segments] *)
Definition resolve_step (resolved : list pystr) (seg : pystr) : list pystr :=
  if bool_decide (seg = dotdot) then removelast resolved
  else if bool_decide (seg = dot) then resolved
  else resolved ++ [seg].

Definition urljoin (base url : pystr) : pystr :=
  if negb (nonempty base) then url
  else if negb (nonempty url) then base
  else
    let b := urlparse base [] in
    let u := urlparse url (pr_scheme b) in
    let scheme := pr_scheme u in
    if negb (bool_decide (scheme = pr_scheme b))
       || negb (str_in scheme uses_relative)
    then url
    else if str_in scheme uses_netloc && nonempty (pr_netloc u)
    then urlunparse scheme (pr_netloc u) (pr_path u) (pr_params u)
                    (pr_query u) (pr_fragment u)
    else
      let netloc :=
        if str_in scheme uses_netloc then pr_netloc b else pr_netloc u in
      if negb (nonempty (pr_path u)) && negb (nonempty (pr_params u))
      then
        urlunparse scheme netloc (pr_path b) (pr_params b)
          (if nonempty (pr_query u) then pr_query u else pr_query b)
          (pr_fragment u)
      else
        let base_parts0 := split_on slash (pr_path b) in
        let base_parts :=
          if nonempty (List.last base_parts0 [])
          then removelast base_parts0 else base_parts0 in
        let segments :=
          match pr_path u with
          | 47 :: _ => split_on slash (pr_path u)
          | _ => filter_middle (base_parts ++ split_on slash (pr_path u))
          end in
        let resolved := fold_left resolve_step segments [] in
        let resolved :=
          if str_in (List.last segments []) [dot; dotdot]
          then resolved ++ [[]] else resolved in
        let joined := join slash resolved in
        urlunparse scheme netloc
          (if nonempty joined then joined else [slash])
          (pr_params u) (pr_query u) (pr_fragment u).

End Url.

Local Close Scope N_scope.

(** ** DataFrames *)

(** A cell holds the missing value of pandas ([NaN], which [to_csv]
    writes as an empty field), a string, an integer, or a float.  A float
    is identified by the text that [repr] gives for it, which is what
    [str], [astype(str)] and [to_csv] write: [Flt "42.0"] is the float
    42.0.  [pd.read_html] returns the numbers of a table as integers and
    floats and everything else as strings; a boolean, which stays what it
    is wherever the script takes it, is held as the string that [str]
    gives for it. *)
Inductive cell :=
| NaN
| Txt (s : pystr)
| Int (z : Z)
| Flt (r : pystr).

#[global] Instance cell_eq_dec : EqDecision cell.
Proof. solve_decision. Defined.

(** Column labels in order, and the rows in order; row [r] holds at
    position [i] the value of the [i]-th column.  The labels of a frame
    are unique, as [pd.read_html] makes them. *)
Record DataFrame := mkDF { columns : list pystr; rows : list (list cell) }.

#[global] Instance DataFrame_eq_dec : EqDecision DataFrame.
Proof. solve_decision. Defined.

(** [pd.DataFrame()] *)
Definition empty_frame : DataFrame := mkDF [] [].

(** [df.empty]: one of the two axes has length 0. *)
Definition df_empty (df : DataFrame) : bool :=
  (length (rows df) =? 0) || (length (columns df) =? 0).

(** [len(df)] *)
Definition df_len (df : DataFrame) : nat := length (rows df).

Definition rectangular (df : DataFrame) : Prop :=
  Forall (fun r => length r = length (columns df)) (rows df).

(** position of a label among the columns *)
Fixpoint col_index (c : pystr) (cols : list pystr) : option nat :=
  match cols with
  | [] => None
  | c' :: cols' =>
    if bool_decide (c = c') then Some 0 else S <$> col_index c cols'
  end.

(** the value of column [c] in a row; [NaN] where the column is absent *)
Definition get_cell (cols : list pystr) (row : list cell) (c : pystr) : cell :=
  match col_index c cols with
  | Some i => default NaN (row !! i)
  | None => NaN
  end.

(** [df.columns = [str(c).strip() for c in df.columns]] *)
Definition strip_columns (df : DataFrame) : DataFrame :=
  mkDF (List.map strip (columns df)) (rows df).

(** ** Table extraction: the scoring pass of [extract_results_table] *)

Definition typical_headers : list pystr :=
  List.map py ["Pos"; "No"; "Name"; "Year of Birth"; "Time"; "Status";
               "Club"; "UCI-ID"; "Pace"]%string.

(** [sum(1 for token in typical_headers
           if any(token in col for col in df.columns))] *)
Definition score (df : DataFrame) : Z :=
  Z.of_nat
    (length (List.filter (fun token => existsb (py_in token) (columns df))
                         typical_headers)).

(** one turn of [for df in tables]; the state is [(best_df, best_score)] *)
Definition scoring_step (st : option DataFrame * Z) (df0 : DataFrame)
  : option DataFrame * Z :=
  let df := strip_columns df0 in
  let sc := score df in
  if (snd st <? sc)%Z then (Some df, sc) else st.

Definition scoring_pass (tables : list DataFrame) : option DataFrame * Z :=
  fold_left scoring_step tables (None, (-1)%Z).

(** [max(tables, key=lambda d: len(d))]: the first table of maximal length *)
Definition largest_table (tables : list DataFrame) : option DataFrame :=
  match tables with
  | [] => None
  | t :: ts =>
    Some (fold_left (fun best d => if df_len best <? df_len d then d else best)
                    ts t)
  end.

Definition is_None {A} (o : option A) : bool :=
  match o with None => true | Some _ => false end.

(** [best_df is None and tables] *)
Definition fallback_needed (best_df : option DataFrame)
           (tables : list DataFrame) : bool :=
  is_None best_df && nonempty tables.

(** ** Pagination: anchors of the parsed page *)

(** What the program reads of an [<a>] element: the values of [rel] (a
    multi-valued attribute, empty when absent), [href] when the attribute
    is there, and [get_text()]. *)
Record Anchor := mkA {
  a_rel : list pystr; a_href : option pystr; a_text : pystr }.

(** [a.get("href")] as a condition: the attribute is there and not empty *)
Definition get_href (a : Anchor) : option pystr :=
  match a_href a with
  | Some (c :: h) => Some (c :: h)
  | _ => None
  end.

(** [soup.find("a", rel="next")] *)
Definition find_rel_next (soup : list Anchor) : option Anchor :=
  List.find (fun a => str_in (py "next") (a_rel a)) soup.

Definition possible_texts : list pystr :=
  List.map py ["next"; "next »"; "next page"; ">"; "›"; ">>"; "more";
               "weiter"; "nächste"]%string.

(** [for a in soup.find_all("a"): ...] *)
Fixpoint text_scan (current_url : pystr) (anchors : list Anchor)
  : option pystr :=
  match anchors with
  | [] => None
  | a :: rest =>
    let text := lower (strip (a_text a)) in
    match (if str_in text possible_texts then get_href a else None) with
    | Some href => Some (Url.urljoin current_url href)
    | None => text_scan current_url rest
    end
  end.

(** ** Merging: [pd.concat] and [drop_duplicates] *)

Definition add_new_columns (acc cols : list pystr) : list pystr :=
  fold_left (fun acc c => if str_in c acc then acc else acc ++ [c]) cols acc.

(** the union of the labels, in order of first appearance *)
Definition union_columns (frames : list DataFrame) : list pystr :=
  fold_left (fun acc f => add_new_columns acc (columns f)) frames [].

Definition reindex_row (cols : list pystr) (row : list cell)
           (target : list pystr) : list cell :=
  List.map (get_cell cols row) target.

(** the rows of the tables in order, laid out over the union of the
    labels: [NaN] where a table lacks a column *)
Definition reindexed (frames : list DataFrame) : list (list cell) :=
  let cols := union_columns frames in
  flat_map (fun f => List.map (fun r => reindex_row (columns f) r cols)
                              (rows f))
           frames.

(** A column has one dtype.  Of what [pd.read_html] returns, a column of
    integers is [int64], a column of numbers with a float or a missing
    value among them is [float64], and a column with a string is
    [object]. *)
Inductive dtype := int64 | float64 | object.

Definition is_text (v : cell) : bool :=
  match v with Txt _ => true | _ => false end.

Definition is_float_or_missing (v : cell) : bool :=
  match v with NaN | Flt _ => true | _ => false end.

(** the dtype that holds these values *)
Definition dtype_of (vs : list cell) : dtype :=
  if existsb is_text vs then object
  else if existsb is_float_or_missing vs then float64
  else int64.

(** a value in a column of that dtype: in a [float64] column an integer
    is a float, 42 is 42.0; in an [object] column every value stays what it
    is *)
Definition astype (d : dtype) (v : cell) : cell :=
  match d, v with
  | float64, Int z => Flt (float_str z)
  | _, _ => v
  end.

Definition column_values (cols : list pystr) (rs : list (list cell))
           (c : pystr) : list cell :=
  List.map (fun r => get_cell cols r c) rs.

(** the dtype of column [c] of the concatenated frame: the common dtype of
    the column in the tables, with the missing values of the tables that
    lack it *)
Definition concat_dtype (frames : list DataFrame) (c : pystr) : dtype :=
  dtype_of (column_values (union_columns frames) (reindexed frames) c).

(** [pd.concat(frames, ignore_index=True)]: the rows of the tables in
    order over the union of the labels, every column brought to its
    dtype *)
Definition pd_concat (frames : list DataFrame) : DataFrame :=
  let cols := union_columns frames in
  mkDF cols
       (List.map (fun r => List.map (fun c => astype (concat_dtype frames c)
                                                     (get_cell cols r c))
                                    cols)
                 (reindexed frames)).

(** [[c for c in big.columns if c.lower() in ("pos", "no", "name")]] *)
Definition dedup_cols (big : DataFrame) : list pystr :=
  List.filter (fun c => str_in (lower c) [py "pos"; py "no"; py "name"])
              (columns big).

Definition row_key (cols subset : list pystr) (row : list cell) : list cell :=
  List.map (get_cell cols row) subset.

(** [DataFrame.duplicated(subset, keep="first")]: the mask is [true] at a
    row whose key was seen at an earlier row. *)
Fixpoint duplicated_from (seen keys : list (list cell)) : list bool :=
  match keys with
  | [] => []
  | k :: ks =>
    if bool_decide (k ∈ seen) then true :: duplicated_from seen ks
    else false :: duplicated_from (k :: seen) ks
  end.

Definition duplicated (df : DataFrame) (subset : list pystr) : list bool :=
  duplicated_from [] (List.map (row_key (columns df) subset) (rows df)).

(** [rows[~mask]] *)
Fixpoint drop_masked {A} (mask : list bool) (l : list A) : list A :=
  match mask, l with
  | b :: mask', x :: l' =>
    if b then drop_masked mask' l' else x :: drop_masked mask' l'
  | _, _ => []
  end.

(** [df.drop_duplicates(subset=subset)] *)
Definition drop_duplicates (df : DataFrame) (subset : list pystr) : DataFrame :=
  mkDF (columns df) (drop_masked (duplicated df subset) (rows df)).

(** lines 183-190 of [scrape_all_pages] *)
Definition merge_frames (all_frames : list DataFrame) : DataFrame :=
  let big := pd_concat all_frames in
  let cols := dedup_cols big in
  if nonempty cols then drop_duplicates big cols else big.

(** ** Column normalisation *)

Definition REQUESTED_COLUMNS : list pystr :=
  List.map py ["Pos"; "No"; "Name"; "Year of Birth"; "Time"; "Diff"; "Cat";
               "Cat Pos"; "Cat Diff"; "⚤"; "⚤ Pos"; "⚤ Diff"; "Club";
               "Pace"; "City"; "Status"; "UCI-ID"]%string.

(** [df[col] = v] for a label that is not a column yet *)
Definition add_column (df : DataFrame) (col : pystr) (v : cell) : DataFrame :=
  mkDF (columns df ++ [col]) (List.map (fun r => r ++ [v]) (rows df)).

(** [for col in REQUESTED_COLUMNS: if col not in df.columns: df[col] = ""] *)
Definition ensure_column (df : DataFrame) (col : pystr) : DataFrame :=
  if str_in col (columns df) then df else add_column df col (Txt []).

Definition ensure_columns (df : DataFrame) : DataFrame :=
  fold_left ensure_column REQUESTED_COLUMNS df.

(** [.astype(str)] on one value *)
Definition astype_str (c : cell) : pystr :=
  match c with
  | NaN => py "nan"
  | Txt s => s
  | Int z => py_str_Z z
  | Flt r => r
  end.

(** [re.split(r"\s{2,}", s, maxsplit=1)[0]]: the text before the leftmost
    position at which two whitespace characters follow each other. *)
Fixpoint split_head (s : pystr) : pystr :=
  match s with
  | a :: ((b :: _) as s') =>
    if py_isspace a && py_isspace b then [] else a :: split_head s'
  | _ => s
  end.

(** [.astype(str).str.split(r"\s{2,}", n=1).str[0].str.strip()] on one value *)
Definition clean_name (c : cell) : cell :=
  Txt (strip (split_head (astype_str c))).

Definition Name : pystr := py "Name".

Definition normalize_name_column (df : DataFrame) : DataFrame :=
  match col_index Name (columns df) with
  | Some i => mkDF (columns df) (List.map (alter clean_name i) (rows df))
  | None => df
  end.

(** [df[cols].copy()] *)
Definition select_columns (df : DataFrame) (cols : list pystr) : DataFrame :=
  mkDF cols (List.map (fun r => reindex_row (columns df) r cols) (rows df)).

Definition select_and_order_columns (df : DataFrame) : DataFrame :=
  select_columns (normalize_name_column (ensure_columns df)) REQUESTED_COLUMNS.

(** ** The scraper over its external collaborators *)

(** a step of the scrape loop that the outside can see *)
Inductive event :=
| Visit (u : pystr)     (* [visited.add(url)] *)
| Get (u : pystr).      (* [session.get(url, ...)] *)

#[global] Instance event_eq_dec : EqDecision event.
Proof. solve_decision. Defined.

(** the variables of the [while] loop, and the steps taken so far *)
Record LoopState := mkState {
  all_frames : list DataFrame;
  visited : gset pystr;
  url : option pystr;
  trace : list event }.

Inductive iteration :=
| Continue (st : LoopState)   (* the body ran to its end *)
| Break                       (* the loop condition is false *)
| Raise (st : LoopState).     (* [fetch_html] raised *)

Inductive status := Running | Finished | Failed.

Inductive outcome (A : Type) :=
| Returned (a : A)
| HTTPError
| OutOfFuel.
Arguments Returned {A} a.
Arguments HTTPError {A}.
Arguments OutOfFuel {A}.

(** what [main] does to the outside *)
Inductive output :=
| Stderr (line : pystr)
| Stdout (line : pystr)
| WriteCsv (df : DataFrame) (out_file : pystr).

Definition gets (tr : list event) : list pystr :=
  omap (fun e => match e with Get u => Some u | Visit _ => None end) tr.

Section Scraper.

(** [fetch_html(session, url)]: the text of the page, or nothing when
    [session.get] or [raise_for_status] raises. *)
Variable fetch_html : pystr -> option pystr.
(** [pd.read_html(html)]: the tables of the page, or nothing when it
    raises [ValueError] (no tables found). *)
Variable read_html : pystr -> option (list DataFrame).
(** [BeautifulSoup(html, "html.parser").find_all("a")] *)
Variable soup_anchors : pystr -> list Anchor.

Definition extract_results_table (html : pystr) : option DataFrame :=
  match read_html html with
  | None => None
  | Some tables =>
    let best_df := fst (scoring_pass tables) in
    (* the loop has rebound the columns of every table in place *)
    let tables := List.map strip_columns tables in
    if fallback_needed best_df tables
    then strip_columns <$> largest_table tables
    else best_df
  end.

Definition find_next_page_url (html current_url : pystr) : option pystr :=
  let soup := soup_anchors html in
  (* 1) rel="next" *)
  match find_rel_next soup ≫= get_href with
  | Some href => Some (Url.urljoin current_url href)
  | None =>
    (* 2) text-based heuristics *)
    text_scan current_url soup
  end.

(** [while url and url not in visited] *)
Definition loop_cond (st : LoopState) : option pystr :=
  match url st with
  | Some u => if nonempty u && bool_decide (u ∉ visited st) then Some u else None
  | None => None
  end.

Definition loop_body (st : LoopState) (u : pystr) : iteration :=
  let visited' := {[u]} ∪ visited st in
  let trace' := trace st ++ [Visit u; Get u] in
  match fetch_html u with
  | None => Raise (mkState (all_frames st) visited' (url st) trace')
  | Some html =>
    let frames' :=
      match extract_results_table html with
      | Some df =>
        if df_empty df then all_frames st
        else all_frames st ++ [strip_columns df]
      | None => all_frames st
      end in
    Continue (mkState frames' visited' (find_next_page_url html u) trace')
  end.

Definition iterate (st : LoopState) : iteration :=
  match loop_cond st with
  | Some u => loop_body st u
  | None => Break
  end.

Fixpoint run (fuel : nat) (st : LoopState) : status * LoopState :=
  match fuel with
  | 0 => (Running, st)
  | S fuel' =>
    match iterate st with
    | Continue st' => run fuel' st'
    | Break => (Finished, st)
    | Raise st' => (Failed, st')
    end
  end.

Definition initial (start_url : pystr) : LoopState :=
  mkState [] ∅ (Some start_url) [].

Definition scrape_all_pages (fuel : nat) (start_url : pystr)
  : outcome DataFrame :=
  match run fuel (initial start_url) with
  | (Finished, st) =>
    if nonempty (all_frames st) then Returned (merge_frames (all_frames st))
    else Returned empty_frame
  | (Failed, _) => HTTPError
  | (Running, _) => OutOfFuel
  end.

Definition no_data_message : pystr :=
  py "No data found: could not locate a suitable results table.".

(** [f"Wrote {len(df_final)} rows to {args.output}"] *)
Definition wrote_message (n : nat) (out_file : pystr) : pystr :=
  py "Wrote " ++ py_str_nat n ++ py " rows to " ++ out_file.

(** [main] with [args.url] and [args.output]: the exit code and what was
    printed and written. *)
Definition main (fuel : nat) (args_url args_output : pystr)
  : outcome (Z * list output) :=
  match scrape_all_pages fuel args_url with
  | Returned df_all =>
    if df_empty df_all then Returned (1%Z, [Stderr no_data_message])
    else
      let df_final := select_and_order_columns df_all in
      Returned (0%Z, [WriteCsv df_final args_output;
                      Stdout (wrote_message (df_len df_final) args_output)])
  | HTTPError => HTTPError
  | OutOfFuel => OutOfFuel
  end.

End Scraper.

(** ** Vocabulary of the properties *)

(** [s] contains two consecutive whitespace characters (the start of a run
    of two or more) *)
Definition ws_pair_in (s : pystr) : Prop :=
  ∃ pre a b post, s = pre ++ a :: b :: post
                  ∧ py_isspace a = true ∧ py_isspace b = true.


(** the boolean test of [ws_pair_in] *)
Fixpoint has_run (s : pystr) : bool :=
  match s with
  | a :: ((b :: _) as s') => (py_isspace a && py_isspace b) || has_run s'
  | _ => false
  end.

(** the values of column [c] in the tables, in the order of the rows;
    [NaN] for a row of a table that lacks the column *)
Definition values_of (frames : list DataFrame) (c : pystr) : list cell :=
  flat_map (fun f => List.map (fun r => get_cell (columns f) r c) (rows f))
           frames.


(** the steps of the loop for the pages [us], in order *)
Definition visits (us : list pystr) : list event :=
  flat_map (fun u => [Visit u; Get u]) us.

(** the non-empty table that the extractor finds on the page at [u] *)
Definition page_table (fetch_html : pystr -> option pystr)
           (read_html : pystr -> option (list DataFrame)) (u : pystr)
  : option DataFrame :=
  match fetch_html u with
  | Some html =>
    match extract_results_table read_html html with
    | Some df => if df_empty df then None else Some df
    | None => None
    end
  | None => None
  end.

(** what holds of the variables of the loop once it has gone through the
    pages [us] *)
Definition after_pages (fetch_html : pystr -> option pystr)
           (read_html : pystr -> option (list DataFrame))
           (us : list pystr) (st : LoopState) : Prop :=
  trace st = visits us
  ∧ NoDup us
  ∧ visited st = list_to_set us
  ∧ all_frames st = strip_columns <$> omap (page_table fetch_html read_html) us.

(** the link target the detector settles on, before resolution *)
Definition found_href (soup : list Anchor) : option pystr :=
  match find_rel_next soup ≫= get_href with
  | Some href => Some href
  | None =>
    List.find (fun a => str_in (lower (strip (a_text a))) possible_texts
                        && negb (is_None (get_href a))) soup ≫= get_href
  end.

(** the condition of the scan by text on one anchor:
    [text in possible_texts and a.get("href")] *)
Definition link_by_text (a : Anchor) : bool :=
  str_in (lower (strip (a_text a))) possible_texts
  && negb (is_None (get_href a)).

(** the next-page URL of the page at [u], when the page can be fetched *)
Definition next_of (fetch_html : pystr -> option pystr)
           (soup_anchors : pystr -> list Anchor) (u : pystr) : option pystr :=
  match fetch_html u with
  | Some html => find_next_page_url soup_anchors html u
  | None => None
  end.

(** each page of [us] is the next page of the one before it *)
Definition linked (fetch_html : pystr -> option pystr)
           (soup_anchors : pystr -> list Anchor) (us : list pystr) : Prop :=
  ∀ i u v, us !! i = Some u → us !! S i = Some v →
           next_of fetch_html soup_anchors u = Some v.

(** [s] is not empty and neither starts nor ends with whitespace *)
Definition trimmed_text (s : pystr) : bool :=
  match head s, last s with
  | Some x, Some y => negb (py_isspace x) && negb (py_isspace y)
  | _, _ => false
  end.

(** ** A small site, to run the definitions on

    Page 1 has a navigation table and a results table and links to page 2
    by text; page 2 has a results table, a [rel="next"] anchor without
    target and a "next" link back to page 1. *)
Module Site.

Definition url1 : pystr := py "https://x.test/r?page=1".
Definition url2 : pystr := py "https://x.test/r?page=2".
Definition html1 : pystr := py "<page 1>".
Definition html2 : pystr := py "<page 2>".

Definition t s := Txt (py s).

Definition nav : DataFrame :=
  mkDF [py "Menu"] [[t "Home"]; [t "Results"]; [t "Contact"]].

Definition results1 : DataFrame :=
  mkDF [py " Pos"; py "No"; py "Name "; py "Time"]
       [[Int 1; Int 42; t "Alice Smith  Cycling Club ABC"; t "1:00:00"];
        [Int 2; Int 7; t "Bob Jones"; t "1:00:05"]].

Definition results2 : DataFrame :=
  mkDF [py "Pos"; py "No"; py "Name"; py "Club"]
       [[Int 2; Int 7; t "Bob Jones"; t "RC Wien"];
        [Int 3; Int 19; t " Carol   White"; NaN]].

(** a page with the years of birth, a page without them, and a page where
    one of them is blank *)
Definition born : DataFrame :=
  mkDF [py "No"; py "Name"; py "Year of Birth"]
       [[Int 42; t "Alice Smith"; Int 1985]].

Definition unborn : DataFrame :=
  mkDF [py "No"; py "Name"] [[Int 7; t "Bob Jones"]].

Definition born_blank : DataFrame :=
  mkDF [py "No"; py "Name"; py "Year of Birth"]
       [[Int 19; t "Carol White"; Flt (py "1990.0")];
        [Int 23; t "Dan Brown"; NaN]].

Definition fetch_html (u : pystr) : option pystr :=
  if bool_decide (u = url1) then Some html1
  else if bool_decide (u = url2) then Some html2
  else None.

Definition read_html (html : pystr) : option (list DataFrame) :=
  if bool_decide (html = html1) then Some [nav; results1]
  else if bool_decide (html = html2) then Some [results2]
  else None.

Definition soup_anchors (html : pystr) : list Anchor :=
  if bool_decide (html = html1)
  then [mkA [] (Some (py "/")) (py "Home");
        mkA [] None (py "Next »");
        mkA [] (Some (py "?page=2")) (py " Next » ")]
  else if bool_decide (html = html2)
  then [mkA [py "next"] None (py "");
        mkA [] (Some (py "?page=1")) (py "next")]
  else [].

(** a page whose [rel="next"] anchor has the relative target [page=2] *)
Definition rel_next_page2 (html : pystr) : list Anchor :=
  [mkA [py "next"] (Some (py "page=2")) (py "Next")].

(** only the first page can be fetched *)
Definition fetch_first_only (u : pystr) : option pystr :=
  if bool_decide (u = url1) then Some html1 else None.

(** a site without any table *)
Definition no_tables (html : pystr) : option (list DataFrame) := None.

End Site.

(** * Properties *)

(** ** Evaluation of the string and URL functions *)

Example py_gender_sign : py "⚤ Pos" = [9892; 32; 80; 111; 115]%N.
Proof. reflexivity. Qed.

Example strip_example : strip (py "  Year of  Birth	 ") = py "Year of  Birth".
Proof. reflexivity. Qed.

Example lower_example : lower (py "NÄCHSTE") = py "nächste".
Proof. reflexivity. Qed.

Example py_in_example :
  py_in (py "No") (py "Start No.") = true /\ py_in (py "no") (py "No") = false.
Proof. split; reflexivity. Qed.

Example py_str_nat_example : py_str_nat 120 = py "120".
Proof. reflexivity. Qed.

Example urljoin_sibling :
  Url.urljoin (py "http://a/b/c/d;p?q") (py "../g;x?y#s") = py "http://a/b/g;x?y#s".
Proof. reflexivity. Qed.

Example urljoin_absolute :
  Url.urljoin (py "http://a/b/c/d") (py "https://h/x") = py "https://h/x".
Proof. reflexivity. Qed.


(** ** Strings *)

Lemma starts_with_spec (p s : pystr) :
  starts_with p s = true ↔ ∃ post, s = p ++ post.
Proof.
  revert s. induction p as [|a p IH]; intros s; simpl.
  - split; [intros _; by exists s | done].
  - destruct s as [|b s]; simpl.
    + split; [done | intros [post H]; discriminate].
    + rewrite andb_true_iff, N.eqb_eq, IH. split.
      * intros [-> [post ->]]. by exists post.
      * intros [post H]. injection H as -> ->. eauto.
Qed.

Lemma py_in_spec (t s : pystr) :
  py_in t s = true ↔ ∃ pre post, s = pre ++ t ++ post.
Proof.
  induction s as [|a s IH]; simpl; rewrite orb_true_iff, starts_with_spec.
  - split.
    + intros [[post H]|H]; [|done]. exists [], post. done.
    + intros (pre & post & H). left. symmetry in H.
      apply app_eq_nil in H as [-> H]. simpl in H. exists post. done.
  - rewrite IH. split.
    + intros [[post H]|(pre & post & H)].
      * exists [], post. done.
      * exists (a :: pre), post. by rewrite H.
    + intros (pre & post & H). destruct pre as [|b pre]; simpl in H.
      * left. eauto.
      * right. injection H as -> ->. eauto.
Qed.

Lemma str_in_spec (x : pystr) (xs : list pystr) : str_in x xs = true ↔ x ∈ xs.
Proof.
  unfold str_in. rewrite existsb_exists. split.
  - intros (y & Hy & Heq). apply bool_decide_eq_true in Heq as ->.
    by apply list_elem_of_In.
  - intros H. exists x. split; [by apply list_elem_of_In|].
    by apply bool_decide_eq_true.
Qed.

(** ** Table extraction *)

Lemma typical_headers_NoDup : NoDup typical_headers.
Proof. apply (bool_decide_unpack (NoDup typical_headers)). vm_compute. exact I. Qed.

Lemma score_nonneg (df : DataFrame) : (0 <= score df)%Z.
Proof. unfold score. lia. Qed.

(** The score is the number of distinct typical tokens that occur as a
    substring of some column label. *)
Lemma score_counts_tokens (df : DataFrame) :
  ∃ toks : list pystr,
    NoDup toks
    ∧ (∀ tok, tok ∈ toks ↔
              tok ∈ typical_headers
              ∧ ∃ col pre post, col ∈ columns df ∧ col = pre ++ tok ++ post)
    ∧ score df = Z.of_nat (length toks).
Proof.
  exists (List.filter (fun token => existsb (py_in token) (columns df))
                      typical_headers).
  split; [apply NoDup_ListNoDup, List.NoDup_filter, NoDup_ListNoDup,
           typical_headers_NoDup|]. split; [|done].
  intros tok. rewrite list_elem_of_In, filter_In, existsb_exists.
  rewrite <- list_elem_of_In. split.
  - intros [Ht (col & Hc & Hin)]. split; [done|].
    apply py_in_spec in Hin as (pre & post & ->).
    exists (pre ++ tok ++ post), pre, post. by rewrite list_elem_of_In.
  - intros [Ht (col & pre & post & Hc & ->)]. split; [done|].
    exists (pre ++ tok ++ post). rewrite <- list_elem_of_In. split; [done|].
    apply py_in_spec. eauto.
Qed.

(** What the scoring pass leaves in [(best_df, best_score)] for a list of
    tables that is not empty. *)
Lemma scoring_pass_spec (tables : list DataFrame) :
  tables ≠ [] →
  ∃ i t, tables !! i = Some t
    ∧ scoring_pass tables = (Some (strip_columns t), score (strip_columns t))
    ∧ (∀ j t', tables !! j = Some t' →
               (score (strip_columns t') <= score (strip_columns t))%Z)
    ∧ (∀ j t', j < i → tables !! j = Some t' →
               (score (strip_columns t') < score (strip_columns t))%Z).
Proof.
  induction tables as [|x tables IH] using rev_ind; [done|]. intros _.
  unfold scoring_pass. rewrite fold_left_app. simpl.
  fold (scoring_pass tables).
  destruct (decide (tables = [])) as [->|Hne].
  - simpl. unfold scoring_step. simpl.
    pose proof (score_nonneg (strip_columns x)) as Hx.
    destruct (Z.ltb_spec (-1) (score (strip_columns x))); [|lia].
    exists 0, x. repeat split; [|intros; lia].
    intros [|j] t' H'; simpl in H'; [|done]. injection H' as ->. lia.
  - destruct (IH Hne) as (i & t & Hi & -> & Hmax & Hfirst).
    unfold scoring_step. simpl.
    destruct (Z.ltb_spec (score (strip_columns t)) (score (strip_columns x))).
    + exists (length tables), x. split; [apply list_lookup_middle; done|].
      split; [done|]. split.
      * intros j t' [H'|[_ H']]%lookup_app_Some.
        -- specialize (Hmax _ _ H'). lia.
        -- destruct (j - length tables); simpl in H'; [|done].
           injection H' as ->. lia.
      * intros j t' Hj H'. rewrite lookup_app_l in H' by done.
        specialize (Hmax _ _ H'). lia.
    + exists i, t. split; [by apply lookup_app_l_Some|]. split; [done|]. split.
      * intros j t' [H'|[_ H']]%lookup_app_Some; [eauto|].
        destruct (j - length tables); simpl in H'; [|done].
        injection H' as ->. lia.
      * intros j t' Hj H'. apply Hfirst with j; [done|].
        apply lookup_lt_Some in Hi.
        rewrite lookup_app_l in H' by lia. done.
Qed.

Lemma fallback_never_needed (tables : list DataFrame) :
  fallback_needed (fst (scoring_pass tables)) (List.map strip_columns tables)
  = false.
Proof.
  destruct (decide (tables = [])) as [->|Hne]; [done|].
  destruct (scoring_pass_spec tables Hne) as (i & t & _ & -> & _). done.
Qed.

(** C4: the branch "pick the largest table" is never taken.  Every score
    is at least 0 and so exceeds the initial best score -1; hence for every
    list of parsed tables the condition [best_df is None and tables] is
    false after the scoring pass, a list that is not empty leaves a best
    table, and the extractor returns what the scoring pass chose. *)
Theorem C4_fallback_unreachable :
  (∀ df, (-1 < score df)%Z)
  ∧ (∀ tables,
       fallback_needed (fst (scoring_pass tables))
                       (List.map strip_columns tables) = false)
  ∧ (∀ tables, tables ≠ [] → is_None (fst (scoring_pass tables)) = false)
  ∧ (∀ read_html html tables,
       read_html html = Some tables →
       extract_results_table read_html html = fst (scoring_pass tables)).
Proof.
  split; [intros df; pose proof (score_nonneg df); lia|].
  split; [apply fallback_never_needed|]. split.
  - intros tables Hne.
    destruct (scoring_pass_spec tables Hne) as (i & t & _ & -> & _). done.
  - intros read_html html tables H. unfold extract_results_table.
    rewrite H. simpl. by rewrite fallback_never_needed.
Qed.

(** C1: when the parse yields a list of candidate tables that is not
    empty, the extractor returns the candidate (with its column labels
    trimmed) whose score is maximal, and among the candidates of maximal
    score the earliest: every candidate before it has a strictly smaller
    score.  The score of a table is the number of distinct tokens of
    [typical_headers] that are a substring of some trimmed column label. *)
Theorem C1_extract_best_scoring
    (read_html : pystr → option (list DataFrame)) (html : pystr)
    (tables : list DataFrame) :
  read_html html = Some tables →
  tables ≠ [] →
  ∃ i t,
    tables !! i = Some t
    ∧ extract_results_table read_html html = Some (strip_columns t)
    ∧ (∀ j t', tables !! j = Some t' →
               (score (strip_columns t') <= score (strip_columns t))%Z)
    ∧ (∀ j t', j < i → tables !! j = Some t' →
               (score (strip_columns t') < score (strip_columns t))%Z)
    ∧ (∀ t', ∃ toks : list pystr,
         NoDup toks
         ∧ (∀ tok, tok ∈ toks ↔
              tok ∈ typical_headers
              ∧ ∃ col pre post, col ∈ List.map strip (columns t')
                                ∧ col = pre ++ tok ++ post)
         ∧ score (strip_columns t') = Z.of_nat (length toks)).
Proof.
  intros Hparse Hne.
  destruct (scoring_pass_spec tables Hne) as (i & t & Hi & Hsp & Hmax & Hfirst).
  exists i, t. split; [done|]. split.
  - unfold extract_results_table. rewrite Hparse. simpl.
    rewrite fallback_never_needed, Hsp. done.
  - split; [done|]. split; [done|].
    intros t'. apply (score_counts_tokens (strip_columns t')).
Qed.

Lemma C1_extract_best_scoring_witness :
  Site.read_html Site.html1 = Some [Site.nav; Site.results1]
  ∧ [Site.nav; Site.results1] ≠ []
  ∧ ∃ i t, [Site.nav; Site.results1] !! i = Some t
           ∧ extract_results_table Site.read_html Site.html1
             = Some (strip_columns t).
Proof.
  assert (H1 : Site.read_html Site.html1 = Some [Site.nav; Site.results1])
    by reflexivity.
  assert (H2 : [Site.nav; Site.results1] ≠ []) by discriminate.
  split; [exact H1|]. split; [exact H2|].
  destruct (C1_extract_best_scoring Site.read_html Site.html1 _ H1 H2)
    as (i & t & Hi & He & _).
  exists i, t. split; [exact Hi | exact He].
Defined.

Lemma C4_fallback_unreachable_witness :
  [Site.nav; Site.results1] ≠ []
  ∧ Site.read_html Site.html1 = Some [Site.nav; Site.results1]
  ∧ is_None (fst (scoring_pass [Site.nav; Site.results1])) = false
  ∧ extract_results_table Site.read_html Site.html1
    = fst (scoring_pass [Site.nav; Site.results1]).
Proof.
  assert (H1 : Site.read_html Site.html1 = Some [Site.nav; Site.results1])
    by reflexivity.
  assert (H2 : [Site.nav; Site.results1] ≠ []) by discriminate.
  destruct C4_fallback_unreachable as (_ & _ & Hbest & Hext).
  split; [exact H2|]. split; [exact H1|]. split.
  - exact (Hbest _ H2).
  - exact (Hext _ _ _ H1).
Defined.

Example extract_page1 :
  extract_results_table Site.read_html Site.html1
  = Some (mkDF [py "Pos"; py "No"; py "Name"; py "Time"] (rows Site.results1))
  ∧ score (strip_columns Site.nav) = 0%Z
  ∧ score (strip_columns Site.results1) = 4%Z.
Proof. repeat split; reflexivity. Qed.

(** ** Pagination *)

Lemma get_href_Some (a : Anchor) (h : pystr) :
  get_href a = Some h ↔ a_href a = Some h ∧ h ≠ [].
Proof.
  unfold get_href. destruct (a_href a) as [[|c h']|]; split.
  all: try (intros [H1 H2]; try done; injection H1 as <-; done).
  all: try done.
  intros H. injection H as <-. done.
Qed.

Lemma get_href_absent (a : Anchor) : a_href a = None → get_href a = None.
Proof. unfold get_href. by intros ->. Qed.

Lemma text_scan_skip (cur : pystr) (a : Anchor) (rest : list Anchor) :
  get_href a = None → text_scan cur (a :: rest) = text_scan cur rest.
Proof.
  intros H. cbn [text_scan]. rewrite H.
  by destruct (str_in (lower (strip (a_text a))) possible_texts).
Qed.

Lemma text_scan_Some (cur : pystr) (soup : list Anchor) (u : pystr) :
  text_scan cur soup = Some u →
  ∃ a h, a ∈ soup
         ∧ str_in (lower (strip (a_text a))) possible_texts = true
         ∧ get_href a = Some h ∧ u = Url.urljoin cur h.
Proof.
  induction soup as [|a soup IH]; cbn [text_scan]; [done|].
  destruct (str_in (lower (strip (a_text a))) possible_texts) eqn:Hin.
  - destruct (get_href a) as [h|] eqn:Hh.
    + intros H. injection H as <-. exists a, h. split; [left|done].
    + intros (a' & h & Ha & ?)%IH. exists a', h. split; [by right|done].
  - intros (a' & h & Ha & ?)%IH. exists a', h. split; [by right|done].
Qed.

Lemma text_scan_found (cur : pystr) (soup : list Anchor) :
  text_scan cur soup
  = Url.urljoin cur <$>
      (List.find (fun a => str_in (lower (strip (a_text a))) possible_texts
                           && negb (is_None (get_href a))) soup ≫= get_href).
Proof.
  induction soup as [|a soup IH]; cbn [text_scan List.find]; [done|].
  destruct (str_in (lower (strip (a_text a))) possible_texts);
    cbn [andb]; [|done].
  destruct (get_href a) as [h|] eqn:Hh; cbn [is_None negb]; [|done].
  cbn. by rewrite Hh.
Qed.

(** The detector resolves the link target it settles on. *)
Lemma find_next_page_url_found
    (soup_anchors : pystr → list Anchor) (html cur : pystr) :
  find_next_page_url soup_anchors html cur
  = Url.urljoin cur <$> found_href (soup_anchors html).
Proof.
  unfold find_next_page_url, found_href.
  destruct (find_rel_next (soup_anchors html) ≫= get_href); [done|].
  apply text_scan_found.
Qed.

(** C10: an anchor without link target neither produces a result nor
    stops the search.  (1) Every result is the resolution of the target of
    an anchor of the page that has a non-empty [href].  (2) When the
    [rel="next"] anchor has no target, the result is that of the scan by
    text.  (3) In the scan by text an anchor without target is passed
    over and the scan goes on with the anchors after it, whatever its
    text.  (4) An anchor whose [href] attribute is absent has no target. *)
Theorem C10_anchor_without_target
    (soup_anchors : pystr → list Anchor) (html cur : pystr) :
  (∀ u, find_next_page_url soup_anchors html cur = Some u →
        ∃ a h, a ∈ soup_anchors html ∧ a_href a = Some h ∧ h ≠ []
               ∧ u = Url.urljoin cur h)
  ∧ (∀ link, find_rel_next (soup_anchors html) = Some link →
             get_href link = None →
             find_next_page_url soup_anchors html cur
             = text_scan cur (soup_anchors html))
  ∧ (∀ a rest, get_href a = None →
               text_scan cur (a :: rest) = text_scan cur rest)
  ∧ (∀ a, a_href a = None → get_href a = None).
Proof.
  split; [|split; [|split]].
  - intros u. unfold find_next_page_url.
    destruct (find_rel_next (soup_anchors html)) as [link|] eqn:Hrel; simpl.
    + destruct (get_href link) as [h|] eqn:Hh.
      * intros H. injection H as <-. exists link, h.
        apply get_href_Some in Hh as [? ?].
        apply find_some in Hrel as [Hin _]. apply list_elem_of_In in Hin.
        done.
      * intros (a & h & Ha & _ & [? ?]%get_href_Some & ->)%text_scan_Some.
        by exists a, h.
    + intros (a & h & Ha & _ & [? ?]%get_href_Some & ->)%text_scan_Some.
      by exists a, h.
  - intros link Hrel Hh. unfold find_next_page_url. rewrite Hrel. simpl.
    by rewrite Hh.
  - intros a rest. apply text_scan_skip.
  - apply get_href_absent.
Qed.

Lemma C10_anchor_without_target_witness :
  let cur := Site.url2 in
  let soup := Site.soup_anchors Site.html2 in
  find_next_page_url Site.soup_anchors Site.html2 cur = Some Site.url1
  ∧ find_rel_next soup = Some (mkA [py "next"] None (py ""))
  ∧ (∃ a h, a ∈ soup ∧ a_href a = Some h ∧ h ≠ []
            ∧ Site.url1 = Url.urljoin cur h)
  ∧ find_next_page_url Site.soup_anchors Site.html2 cur = text_scan cur soup
  ∧ text_scan cur soup = text_scan cur (tail soup).
Proof.
  intros cur soup.
  destruct (C10_anchor_without_target Site.soup_anchors Site.html2 cur)
    as (Hres & Hfall & Hskip & Habs).
  assert (H1 : find_next_page_url Site.soup_anchors Site.html2 cur
               = Some Site.url1) by reflexivity.
  assert (H2 : find_rel_next soup = Some (mkA [py "next"] None (py "")))
    by reflexivity.
  assert (H3 : get_href (mkA [py "next"] None (py "")) = None)
    by (apply Habs; reflexivity).
  split; [exact H1|]. split; [exact H2|]. split; [exact (Hres _ H1)|].
  split; [exact (Hfall _ H2 H3)|].
  exact (Hskip (mkA [py "next"] None (py "")) _ H3).
Defined.

(** C3 as stated fails: the link target [page=2] is a relative path, so it
    replaces the last segment of the path of the current URL, and the
    query of the current URL is dropped. *)
Lemma C3_counterexample :
  found_href (Site.rel_next_page2 (py "<html>")) = Some (py "page=2")
  ∧ find_next_page_url Site.rel_next_page2 (py "<html>")
                       (py "https://x.test/a/b?page=1")
    = Some (py "https://x.test/a/page=2")
  ∧ find_next_page_url Site.rel_next_page2 (py "<html>")
                       (py "https://x.test/a/b?page=1")
    ≠ Some (py "https://x.test/a/b?page=2").
Proof.
  split; [vm_compute; reflexivity|]. split; [vm_compute; reflexivity|].
  vm_compute. discriminate.
Qed.

(** C3, amended: for the current page URL [https://x.test/a/b?page=1] and
    the discovered link target [page=2] the detector returns
    [https://x.test/a/page=2]; it returns [https://x.test/a/b?page=2] for
    the link target [?page=2]. *)
Theorem C3_relative_link_resolution
    (soup_anchors : pystr → list Anchor) (html : pystr) :
  (found_href (soup_anchors html) = Some (py "page=2") →
   find_next_page_url soup_anchors html (py "https://x.test/a/b?page=1")
   = Some (py "https://x.test/a/page=2"))
  ∧ (found_href (soup_anchors html) = Some (py "?page=2") →
     find_next_page_url soup_anchors html (py "https://x.test/a/b?page=1")
     = Some (py "https://x.test/a/b?page=2")).
Proof.
  split; intros H; rewrite find_next_page_url_found, H; reflexivity.
Qed.

Lemma C3_relative_link_resolution_witness :
  let by_rel := fun _ : pystr =>
                  [mkA [py "next"] (Some (py "page=2")) (py "2")] in
  let by_text := fun _ : pystr =>
                   [mkA [] None (py ">"); mkA [] (Some (py "?page=2")) (py " > ")] in
  found_href (by_rel []) = Some (py "page=2")
  ∧ found_href (by_text []) = Some (py "?page=2")
  ∧ find_next_page_url by_rel [] (py "https://x.test/a/b?page=1")
    = Some (py "https://x.test/a/page=2")
  ∧ find_next_page_url by_text [] (py "https://x.test/a/b?page=1")
    = Some (py "https://x.test/a/b?page=2").
Proof.
  intros by_rel by_text.
  assert (H1 : found_href (by_rel []) = Some (py "page=2")) by reflexivity.
  assert (H2 : found_href (by_text []) = Some (py "?page=2")) by reflexivity.
  split; [exact H1|]. split; [exact H2|]. split.
  - exact (proj1 (C3_relative_link_resolution by_rel []) H1).
  - exact (proj2 (C3_relative_link_resolution by_text []) H2).
Defined.

(** ** Cells and columns *)

Lemma map_fmap {A B} (f : A → B) (l : list A) : List.map f l = f <$> l.
Proof. induction l as [|x l IH]; simpl; [done | by rewrite IH]. Qed.

Lemma col_index_Some (c : pystr) (cols : list pystr) :
  c ∈ cols → ∃ i, col_index c cols = Some i ∧ cols !! i = Some c.
Proof.
  induction cols as [|c' cols IH]; [by intros ?%not_elem_of_nil|].
  intros Hin. simpl. case_bool_decide as Heq.
  - exists 0. by subst.
  - apply elem_of_cons in Hin as [?|Hin]; [done|].
    destruct (IH Hin) as (i & -> & Hi). exists (S i). done.
Qed.

Lemma col_index_None (c : pystr) (cols : list pystr) :
  c ∉ cols → col_index c cols = None.
Proof.
  induction cols as [|c' cols IH]; [done|].
  intros Hin. apply not_elem_of_cons in Hin as [Hne Hin]. simpl.
  rewrite bool_decide_eq_false_2 by done. by rewrite IH.
Qed.

Lemma col_index_lt (c : pystr) (cols : list pystr) (i : nat) :
  col_index c cols = Some i → i < length cols.
Proof.
  revert i. induction cols as [|c' cols IH]; intros i; simpl; [done|].
  case_bool_decide.
  - intros [= <-]. lia.
  - destruct (col_index c cols) as [j|]; simpl; [|done].
    intros [= <-]. specialize (IH j eq_refl). lia.
Qed.

Lemma get_cell_absent (cols : list pystr) (row : list cell) (c : pystr) :
  c ∉ cols → get_cell cols row c = NaN.
Proof. intros H. unfold get_cell. by rewrite col_index_None. Qed.

(** Reading column [c] of a row laid out over [target] gives what the row
    was built from. *)
Lemma get_cell_map (g : pystr → cell) (target : list pystr) (c : pystr) :
  c ∈ target → get_cell target (List.map g target) c = g c.
Proof.
  intros (i & Hi & Hc)%col_index_Some. unfold get_cell. rewrite Hi.
  rewrite map_fmap, list_lookup_fmap, Hc. done.
Qed.

Lemma reindex_self (cols : list pystr) (row : list cell) :
  NoDup cols → length row = length cols → reindex_row cols row cols = row.
Proof.
  unfold reindex_row. revert row.
  induction cols as [|c cols IH]; intros row Hnd Hlen.
  - by destruct row.
  - destruct row as [|x row]; [done|]. apply NoDup_cons in Hnd as [Hc Hnd].
    simpl. f_equal.
    + unfold get_cell. simpl. by rewrite bool_decide_eq_true_2.
    + rewrite <- (IH row Hnd) at 2 by (simpl in Hlen; lia).
      apply map_ext_in. intros c' Hc'%list_elem_of_In.
      unfold get_cell. simpl.
      rewrite bool_decide_eq_false_2 by (intros ->; done).
      by destruct (col_index c' cols).
Qed.

(** ** Concatenation *)

Lemma add_new_columns_spec (acc cols : list pystr) :
  NoDup acc →
  NoDup (add_new_columns acc cols)
  ∧ ∀ c, c ∈ add_new_columns acc cols ↔ c ∈ acc ∨ c ∈ cols.
Proof.
  unfold add_new_columns. revert acc.
  induction cols as [|c0 cols IH]; intros acc Hnd; simpl.
  - split; [done|]. intros c. rewrite elem_of_nil. tauto.
  - destruct (str_in c0 acc) eqn:Hin.
    + apply str_in_spec in Hin. destruct (IH acc Hnd) as [H1 H2].
      split; [done|]. intros c. rewrite H2, elem_of_cons.
      split; [tauto|]. intros [?|[->|?]]; tauto.
    + assert (c0 ∉ acc) as Hc0.
      { intros H%str_in_spec. congruence. }
      destruct (IH (acc ++ [c0])) as [H1 H2].
      { apply NoDup_app. split; [done|]. split; [|apply NoDup_singleton].
        intros x Hx ->%list_elem_of_singleton. done. }
      split; [done|]. intros c.
      rewrite H2, elem_of_app, list_elem_of_singleton, elem_of_cons. tauto.
Qed.

Lemma union_columns_from (frames : list DataFrame) (acc : list pystr) :
  NoDup acc →
  let u := fold_left (fun acc f => add_new_columns acc (columns f)) frames acc in
  NoDup u ∧ ∀ c, c ∈ u ↔ c ∈ acc ∨ ∃ f, f ∈ frames ∧ c ∈ columns f.
Proof.
  revert acc. induction frames as [|f frames IH]; intros acc Hnd; simpl.
  - split; [done|]. intros c. split; [tauto|].
    intros [?|(f & ?%not_elem_of_nil & _)]; done.
  - destruct (add_new_columns_spec acc (columns f) Hnd) as [H1 H2].
    destruct (IH _ H1) as [H3 H4]. split; [done|].
    intros c. rewrite H4, H2. split.
    + intros [[?|?]|(f' & Hf' & ?)]; [tauto| |].
      * right. exists f. split; [left|done].
      * right. exists f'. split; [by right|done].
    + intros [?|(f' & [->|Hf']%elem_of_cons & ?)]; [tauto|tauto|].
      right. by exists f'.
Qed.

Lemma union_columns_spec (frames : list DataFrame) :
  NoDup (union_columns frames)
  ∧ ∀ c, c ∈ union_columns frames ↔ ∃ f, f ∈ frames ∧ c ∈ columns f.
Proof.
  destruct (union_columns_from frames [] (NoDup_nil_2 (A:=pystr))) as [H1 H2].
  split; [done|]. intros c. unfold union_columns. rewrite H2.
  rewrite elem_of_nil. tauto.
Qed.

Lemma Forall2_map_intro {A B} (P : A → B → Prop) (g : A → B) (l : list A) :
  (∀ x, x ∈ l → P x (g x)) → Forall2 P l (List.map g l).
Proof.
  induction l as [|x l IH]; intros H; simpl; constructor.
  - apply H. left.
  - apply IH. intros y Hy. apply H. by right.
Qed.

Lemma astype_NaN (d : dtype) (v : cell) : astype d v = NaN ↔ v = NaN.
Proof. by destruct d, v. Qed.

Lemma column_values_reindexed (frames : list DataFrame)
      (cols : list pystr) (c : pystr) :
  c ∈ cols →
  column_values cols
    (flat_map (fun f => List.map (fun r => reindex_row (columns f) r cols)
                                 (rows f)) frames) c
  = values_of frames c.
Proof.
  intros Hc. unfold column_values, values_of.
  induction frames as [|f frames IH]; [done|].
  cbn [flat_map]. rewrite List.map_app, IH. f_equal.
  rewrite List.map_map. apply map_ext. intros r.
  unfold reindex_row. by rewrite get_cell_map.
Qed.

Lemma concat_dtype_values (frames : list DataFrame) (c : pystr) :
  c ∈ union_columns frames →
  concat_dtype frames c = dtype_of (values_of frames c).
Proof.
  intros Hc. unfold concat_dtype, reindexed.
  by rewrite column_values_reindexed.
Qed.

Lemma existsb_elem_of {A} (p : A → bool) (l : list A) :
  existsb p l = true ↔ ∃ x, x ∈ l ∧ p x = true.
Proof.
  rewrite existsb_exists. split; intros (x & Hx & Hp); exists x;
    (split; [by apply list_elem_of_In | done]).
Qed.

(** The dtype of some values is [object] when a string is among them,
    otherwise [float64] when a float or a missing value is among them, and
    otherwise [int64]: then all of them are integers. *)
Lemma dtype_of_spec (vs : list cell) :
  (dtype_of vs = object ↔ ∃ s, Txt s ∈ vs)
  ∧ (dtype_of vs = float64 ↔
     (∀ s, Txt s ∉ vs) ∧ (NaN ∈ vs ∨ ∃ r, Flt r ∈ vs))
  ∧ (dtype_of vs = int64 ↔ Forall (fun v => ∃ z, v = Int z) vs).
Proof.
  unfold dtype_of.
  destruct (existsb is_text vs) eqn:Ht.
  - apply existsb_elem_of in Ht as (v & Hv & Hp).
    destruct v as [|s| |]; try done.
    split; [split; [by exists s | done]|].
    split; (split; [done|]).
    + intros [Hno _]. by destruct (Hno s).
    + rewrite Forall_forall. intros Hall.
      destruct (Hall _ Hv) as [z Hz]. done.
  - assert (Hno : ∀ s, Txt s ∉ vs).
    { intros s Hs. apply not_true_iff_false in Ht. apply Ht.
      apply existsb_elem_of. by exists (Txt s). }
    destruct (existsb is_float_or_missing vs) eqn:Hf.
    + apply existsb_elem_of in Hf as (v & Hv & Hp).
      split; [split; [done | by intros [s Hs%Hno]]|].
      split; [split; [intros _|done]|].
      * split; [done|]. destruct v as [| | |r]; try done;
          [by left | right; by exists r].
      * split; [done|]. rewrite Forall_forall. intros Hall.
        destruct (Hall _ Hv) as [z ->]. done.
    + split; [split; [done | by intros [s Hs%Hno]]|].
      assert (Hint : Forall (fun v => ∃ z, v = Int z) vs).
      { apply Forall_forall. intros v Hv.
        destruct v as [|s|z|r]; [| by destruct (Hno s) | by exists z |];
          exfalso; apply not_true_iff_false in Hf; apply Hf;
          apply existsb_elem_of; eexists; (split; [exact Hv | done]). }
      split; [split; [done|]|done].
      rewrite Forall_forall in Hint.
      intros [_ [Hn|[r Hr]]]; [destruct (Hint _ Hn) as [z Hz] |
                               destruct (Hint _ Hr) as [z Hz]]; done.
Qed.

(** C8: for a list of tables that is not empty, the columns of the merged
    frame are, without repetition, exactly the labels that occur in some
    table; a column has the dtype of its values in all the tables, the
    missing value standing for a row of a table that lacks the column; the
    rows of the merged frame are the blocks of the tables one after the
    other in the order of the tables, the block of a table holding one row
    for each row of the table in the same order; and such a row carries,
    in every column of the merged frame, the missing value [NaN] if the
    table lacks the column and otherwise the value of the table's row in
    the dtype of the column (an integer is a float in a [float64]
    column), so that it is missing exactly when the table lacks the
    column or has no value there. *)
Theorem C8_concat_union (frames : list DataFrame) :
  frames ≠ [] →
  let big := pd_concat frames in
  NoDup (columns big)
  ∧ (∀ c, c ∈ columns big ↔ ∃ f, f ∈ frames ∧ c ∈ columns f)
  ∧ (∀ c, c ∈ columns big →
          concat_dtype frames c = dtype_of (values_of frames c))
  ∧ ∃ blocks : list (list (list cell)),
      rows big = List.concat blocks
      ∧ Forall2
          (fun f block =>
             Forall2
               (fun r r' =>
                  length r' = length (columns big)
                  ∧ ∀ c, c ∈ columns big →
                         get_cell (columns big) r' c
                         = (if bool_decide (c ∈ columns f)
                            then astype (concat_dtype frames c)
                                        (get_cell (columns f) r c)
                            else NaN)
                         ∧ (get_cell (columns big) r' c = NaN
                            ↔ c ∉ columns f ∨ get_cell (columns f) r c = NaN))
               (rows f) block)
          frames blocks.
Proof.
  intros _ big. destruct (union_columns_spec frames) as [Hnd Hin].
  split; [done|]. split; [done|].
  split; [intros c Hc; by apply concat_dtype_values|].
  set (conv := fun r => List.map (fun c => astype (concat_dtype frames c)
                                                   (get_cell (columns big) r c))
                                 (columns big)).
  exists (List.map
            (fun f => List.map
                        (fun r => conv (reindex_row (columns f) r (columns big)))
                        (rows f)) frames).
  split.
  { unfold big, pd_concat, reindexed. cbn [rows columns]. fold big.
    rewrite flat_map_concat_map, concat_map, List.map_map. f_equal.
    apply map_ext. intros f. by rewrite List.map_map. }
  apply Forall2_map_intro. intros f _.
  apply Forall2_map_intro. intros r _. unfold conv.
  split; [by rewrite length_map|].
  intros c Hc. rewrite get_cell_map by done.
  unfold reindex_row. rewrite get_cell_map by done.
  case_bool_decide as Hcf.
  - split; [done|]. rewrite astype_NaN. split; [by right|].
    by intros [?|?].
  - rewrite (get_cell_absent (columns f)) by done.
    rewrite (proj2 (astype_NaN _ NaN)) by done. split; [done|].
    split; [by left | done].
Qed.

Lemma C8_concat_union_witness :
  let frames := [Site.born; Site.unborn] in
  frames ≠ []
  ∧ columns (pd_concat frames) = [py "No"; py "Name"; py "Year of Birth"]
  ∧ rows (pd_concat frames)
    = [[Int 42; Site.t "Alice Smith"; Flt (py "1985.0")];
       [Int 7; Site.t "Bob Jones"; NaN]]
  ∧ NoDup (columns (pd_concat frames)).
Proof.
  intros frames.
  assert (H : frames ≠ []) by discriminate.
  split; [exact H|]. split; [vm_compute; reflexivity|].
  split; [vm_compute; reflexivity|].
  exact (proj1 (C8_concat_union frames H)).
Defined.

Example concat_fills_missing :
  let big := pd_concat [strip_columns Site.results1; Site.results2] in
  columns big = [py "Pos"; py "No"; py "Name"; py "Time"; py "Club"]
  ∧ List.map (fun r => get_cell (columns big) r (py "Pos")) (rows big)
    = [Int 1; Int 2; Int 2; Int 3]
  ∧ List.map (fun r => get_cell (columns big) r (py "Club")) (rows big)
    = [NaN; NaN; Txt (py "RC Wien"); NaN].
Proof. vm_compute. done. Qed.

Example concat_blank_makes_floats :
  let big := pd_concat [Site.born; Site.born_blank] in
  List.map (fun r => get_cell (columns big) r (py "Year of Birth")) (rows big)
  = [Flt (py "1985.0"); Flt (py "1990.0"); NaN]
  ∧ List.map (fun r => get_cell (columns big) r (py "No")) (rows big)
    = [Int 42; Int 19; Int 23].
Proof. vm_compute. done. Qed.

Example concat_text_keeps_integers :
  let dnf := mkDF [py "No"; py "Year of Birth"] [[Int 5; Site.t "n/a"]] in
  rows (pd_concat [Site.born; dnf])
  = [[Int 42; Site.t "Alice Smith"; Int 1985]; [Int 5; NaN; Site.t "n/a"]].
Proof. vm_compute. reflexivity. Qed.

Example float_str_examples :
  float_str 42 = py "42.0" ∧ float_str (-7) = py "-7.0"
  ∧ float_str 0 = py "0.0"
  ∧ float_str 9007199254740993 = py "9007199254740992.0"
  ∧ float_str 10000000000000000 = py "1e+16"
  ∧ float_str 9223372036854775807 = py "9.223372036854776e+18".
Proof. vm_compute. done. Qed.

(** ** De-duplication *)



Lemma drop_masked_sublist {A} (mask : list bool) (l : list A) :
  sublist (drop_masked mask l) l.
Proof.
  revert l. induction mask as [|b mask IH]; intros [|x l]; simpl;
    try apply sublist_nil_l.
  destruct b; [apply sublist_cons | apply sublist_skip]; apply IH.
Qed.







Example dedup_keeps_first :
  let first := mkDF [py "Pos"; py "No"; py "Name"; py "Club"]
                    [[Int 1; Int 42; Site.t "X"; Site.t "first"]] in
  let second := mkDF [py "Pos"; py "No"; py "Name"; py "Club"]
                     [[Int 1; Int 42; Site.t "X"; Site.t "second"]] in
  rows (merge_frames [first; second])
  = [[Int 1; Int 42; Site.t "X"; Site.t "first"]].
Proof. reflexivity. Qed.

Example dedup_after_promotion :
  let first := mkDF [py "No"; py "Name"] [[Int 42; Site.t "X"]] in
  let second := mkDF [py "No"; py "Name"]
                     [[Flt (py "42.0"); Site.t "X"]; [NaN; Site.t "Y"]] in
  rows (pd_concat [first; second])
  = [[Flt (py "42.0"); Site.t "X"]; [Flt (py "42.0"); Site.t "X"];
     [NaN; Site.t "Y"]]
  ∧ rows (merge_frames [first; second])
    = [[Flt (py "42.0"); Site.t "X"]; [NaN; Site.t "Y"]].
Proof. vm_compute. done. Qed.

(** ** Cleaning of names *)

Lemma drop_while_decomp {A} (p : A → bool) (l : list A) :
  ∃ pre, l = pre ++ drop_while p l.
Proof.
  induction l as [|x l [pre IH]]; simpl; [by exists []|].
  destruct (p x); [|by exists []]. exists (x :: pre). simpl. by f_equal.
Qed.

Lemma drop_while_head {A} (p : A → bool) (l : list A) :
  match drop_while p l with [] => True | x :: _ => p x = false end.
Proof.
  induction l as [|x l IH]; simpl; [done|]. by destruct (p x) eqn:Hx; simpl.
Qed.

Lemma drop_while_id {A} (p : A → bool) (l : list A) :
  match l with [] => True | x :: _ => p x = false end → drop_while p l = l.
Proof. destruct l as [|x l]; simpl; [done|]. by intros ->. Qed.

Lemma drop_while_idem {A} (p : A → bool) (l : list A) :
  drop_while p (drop_while p l) = drop_while p l.
Proof. apply drop_while_id, drop_while_head. Qed.

Lemma rstrip_prefix (s : pystr) : ∃ post, s = rstrip s ++ post.
Proof.
  unfold rstrip. destruct (drop_while_decomp py_isspace (rev s)) as [pre H].
  exists (rev pre). rewrite <- rev_app_distr, <- H. by rewrite rev_involutive.
Qed.

Lemma strip_infix (s : pystr) : ∃ pre post, s = pre ++ strip s ++ post.
Proof.
  unfold strip. destruct (drop_while_decomp py_isspace s) as [pre H].
  destruct (rstrip_prefix (lstrip s)) as [post H'].
  exists pre, post. unfold lstrip in *. by rewrite <- H', <- H.
Qed.

Lemma strip_idem (s : pystr) : strip (strip s) = strip s.
Proof.
  unfold strip. set (s1 := lstrip s).
  assert (Hl : lstrip (rstrip s1) = rstrip s1).
  { apply drop_while_id. destruct (rstrip_prefix s1) as [post H].
    pose proof (drop_while_head py_isspace s) as Hh. fold (lstrip s) in Hh.
    fold s1 in Hh. destruct (rstrip s1) as [|x t]; [done|].
    rewrite H in Hh. done. }
  rewrite Hl. unfold rstrip. rewrite rev_involutive, drop_while_idem. done.
Qed.

Lemma split_head_cons2 (a b : N) (s : pystr) :
  split_head (a :: b :: s)
  = if py_isspace a && py_isspace b then [] else a :: split_head (b :: s).
Proof. done. Qed.

Lemma has_run_cons2 (a b : N) (s : pystr) :
  has_run (a :: b :: s) = (py_isspace a && py_isspace b) || has_run (b :: s).
Proof. done. Qed.

Lemma has_run_spec (s : pystr) : has_run s = true ↔ ws_pair_in s.
Proof.
  induction s as [|a s IH].
  - split; [done|]. intros (pre & x & y & post & H & _). by destruct pre.
  - destruct s as [|b s].
    + split; [done|]. intros (pre & x & y & post & H & _).
      by destruct pre as [|? [|? ?]].
    + rewrite has_run_cons2, orb_true_iff, andb_true_iff, IH. split.
      * intros [[Ha Hb]|(pre & x & y & post & H & Hx & Hy)].
        -- by exists [], a, b, s.
        -- exists (a :: pre), x, y, post. by rewrite H.
      * intros (pre & x & y & post & H & Hx & Hy).
        destruct pre as [|a' pre]; simpl in H.
        -- injection H as -> -> ->. by left.
        -- injection H as -> H. right. by exists pre, x, y, post.
Qed.

Lemma has_run_false (s : pystr) : has_run s = false ↔ ¬ ws_pair_in s.
Proof. rewrite <- has_run_spec. by destruct (has_run s). Qed.

Lemma ws_pair_in_app (pre s post : pystr) :
  ws_pair_in s → ws_pair_in (pre ++ s ++ post).
Proof.
  intros (p & a & b & q & -> & Ha & Hb).
  exists (pre ++ p), a, b, (q ++ post). split; [|done].
  by rewrite <- !app_assoc.
Qed.

Lemma split_head_no_run (s : pystr) : has_run s = false → split_head s = s.
Proof.
  induction s as [|a s IH]; [done|]. destruct s as [|b s]; [done|].
  rewrite has_run_cons2, split_head_cons2, orb_false_iff. intros [-> H].
  by rewrite IH.
Qed.

Lemma has_run_split_head (s : pystr) : has_run (split_head s) = false.
Proof.
  induction s as [|a s IH]; [done|]. destruct s as [|b s]; [done|].
  rewrite split_head_cons2.
  destruct (py_isspace a && py_isspace b) eqn:Hab; [done|].
  destruct s as [|c s]; [simpl in *; by rewrite Hab|].
  rewrite split_head_cons2 in *.
  destruct (py_isspace b && py_isspace c); [done|].
  rewrite has_run_cons2, Hab. done.
Qed.



Lemma clean_name_idem (c : cell) : clean_name (clean_name c) = clean_name c.
Proof.
  unfold clean_name at 1 3. simpl. f_equal.
  rewrite split_head_no_run, strip_idem; [done|].
  apply has_run_false. intros Hrun.
  destruct (strip_infix (split_head (astype_str c))) as (pre & post & H).
  pose proof (has_run_split_head (astype_str c)) as Hno.
  apply has_run_false in Hno. apply Hno. rewrite H. by apply ws_pair_in_app.
Qed.

Lemma clean_name_clean (c : cell) :
  ∃ v, clean_name c = Txt v ∧ strip v = v ∧ ¬ ws_pair_in v.
Proof.
  exists (strip (split_head (astype_str c))). split; [done|].
  split; [apply strip_idem|]. intros Hrun.
  destruct (strip_infix (split_head (astype_str c))) as (pre & post & H).
  pose proof (has_run_split_head (astype_str c)) as Hno.
  apply has_run_false in Hno. apply Hno. rewrite H. by apply ws_pair_in_app.
Qed.

Lemma clean_name_fixed (v : pystr) :
  strip v = v → ¬ ws_pair_in v → clean_name (Txt v) = Txt v.
Proof.
  intros Hs Hno%has_run_false. unfold clean_name. simpl.
  by rewrite split_head_no_run, Hs.
Qed.

(** ** The column normaliser *)

Lemma Name_requested : col_index Name REQUESTED_COLUMNS = Some 2.
Proof. reflexivity. Qed.

Lemma REQUESTED_COLUMNS_NoDup : NoDup REQUESTED_COLUMNS.
Proof. apply (bool_decide_unpack (NoDup REQUESTED_COLUMNS)). vm_compute. exact I. Qed.

Lemma alter_fixed {A} (f : A → A) (i : nat) (l : list A) :
  (∀ x, l !! i = Some x → f x = x) → alter f i l = l.
Proof.
  revert i. induction l as [|y l IH]; intros i H; [done|].
  destruct i as [|i]; simpl.
  - f_equal. by apply H.
  - f_equal. apply IH. intros x Hx. by apply H.
Qed.

Lemma map_fixed {A} (g : A → A) (l : list A) :
  (∀ x, x ∈ l → g x = x) → List.map g l = l.
Proof.
  induction l as [|y l IH]; intros H; simpl; [done|]. f_equal.
  - apply H. left.
  - apply IH. intros x Hx. apply H. by right.
Qed.

Lemma ensure_fold_spec (cols : list pystr) (df : DataFrame) :
  let df' := fold_left ensure_column cols df in
  (rectangular df → rectangular df')
  ∧ (∀ c, c ∈ columns df → c ∈ columns df')
  ∧ (∀ c, c ∈ cols → c ∈ columns df').
Proof.
  revert df. induction cols as [|c0 cols IH]; intros df; simpl.
  - split; [done|]. split; [done|]. by intros c ?%not_elem_of_nil.
  - destruct (IH (ensure_column df c0)) as (Hr & Hold & Hnew).
    assert (Hstep : (rectangular df → rectangular (ensure_column df c0))
                    ∧ (∀ c, c ∈ columns df → c ∈ columns (ensure_column df c0))
                    ∧ c0 ∈ columns (ensure_column df c0)).
    { unfold ensure_column. destruct (str_in c0 (columns df)) eqn:Hin.
      - apply str_in_spec in Hin. done.
      - split; [|split].
        + unfold rectangular, add_column. simpl. intros H.
          rewrite map_fmap. apply Forall_fmap. eapply Forall_impl; [exact H|].
          intros r Hlen. simpl in *. rewrite !length_app. simpl. lia.
        + intros c Hc. simpl. apply elem_of_app. by left.
        + simpl. apply elem_of_app. right. left. }
    destruct Hstep as (Hr0 & Hold0 & Hc0).
    split; [auto|]. split; [auto|].
    intros c [->|Hc]%elem_of_cons; auto.
Qed.

Lemma ensure_columns_spec (df : DataFrame) :
  (rectangular df → rectangular (ensure_columns df))
  ∧ (∀ c, c ∈ REQUESTED_COLUMNS → c ∈ columns (ensure_columns df)).
Proof.
  destruct (ensure_fold_spec REQUESTED_COLUMNS df) as (H1 & _ & H2). done.
Qed.

Lemma ensure_columns_present (rs : list (list cell)) :
  ensure_columns (mkDF REQUESTED_COLUMNS rs) = mkDF REQUESTED_COLUMNS rs.
Proof. vm_compute. reflexivity. Qed.

(** The value of [Name] in a row after [normalize_name_column]. *)
Lemma normalize_name_cell (cols : list pystr) (i : nat) (r : list cell) :
  col_index Name cols = Some i →
  length r = length cols →
  get_cell cols (alter clean_name i r) Name = clean_name (get_cell cols r Name).
Proof.
  intros Hi Hlen. unfold get_cell. rewrite Hi.
  rewrite list_lookup_alter_eq.
  pose proof (col_index_lt _ _ _ Hi) as Hlt.
  destruct (lookup_lt_is_Some_2 r i) as [x ->]; [lia|]. done.
Qed.

Lemma col_index_app_l (c : pystr) (cols more : list pystr) :
  c ∈ cols → col_index c (cols ++ more) = col_index c cols.
Proof.
  induction cols as [|c' cols IH]; [by intros ?%not_elem_of_nil|].
  intros Hin. simpl. case_bool_decide as Heq; [done|].
  apply elem_of_cons in Hin as [?|Hin]; [done|]. by rewrite IH.
Qed.

Lemma get_cell_app_l (cols more : list pystr) (r extras : list cell)
      (c : pystr) :
  c ∈ cols → length r = length cols →
  get_cell (cols ++ more) (r ++ extras) c = get_cell cols r c.
Proof.
  intros Hc Hlen. unfold get_cell. rewrite col_index_app_l by done.
  destruct (col_index c cols) as [i|] eqn:Hi; [|done].
  apply col_index_lt in Hi. rewrite lookup_app_l by lia. done.
Qed.

(** [ensure_columns] appends columns of empty strings and leaves the
    columns that are there as they are. *)
Lemma ensure_fold_rows (cols : list pystr) (df : DataFrame) :
  ∃ new : list pystr,
    columns (fold_left ensure_column cols df) = columns df ++ new
    ∧ rows (fold_left ensure_column cols df)
      = List.map (fun r => r ++ replicate (length new) (Txt [])) (rows df).
Proof.
  revert df. induction cols as [|c0 cols IH]; intros df.
  - exists []. cbn [fold_left]. split; [by rewrite app_nil_r|].
    symmetry. apply map_fixed. intros r _. apply app_nil_r.
  - cbn [fold_left]. set (e := ensure_column df c0).
    destruct (IH e) as (new & Hc & Hr).
    assert (He : e = df
                 ∨ (columns e = columns df ++ [c0]
                    ∧ rows e = List.map (fun r => r ++ [Txt []]) (rows df))).
    { unfold e, ensure_column. destruct (str_in c0 (columns df)); [by left|].
      right. done. }
    destruct He as [He|[Hc2 Hr2]].
    + exists new. by rewrite <- He.
    + exists (c0 :: new). rewrite Hc, Hr, Hc2, Hr2.
      split; [by rewrite <- app_assoc|].
      rewrite map_map. apply map_ext. intros r. by rewrite <- app_assoc.
Qed.

Lemma ensure_columns_rows (df : DataFrame) :
  ∃ new : list pystr,
    columns (ensure_columns df) = columns df ++ new
    ∧ rows (ensure_columns df)
      = List.map (fun r => r ++ replicate (length new) (Txt [])) (rows df).
Proof. exact (ensure_fold_rows REQUESTED_COLUMNS df). Qed.



(** A frame in normal form is left as it is. *)
Lemma normalized_fixed (df : DataFrame) :
  columns df = REQUESTED_COLUMNS →
  rectangular df →
  (∀ r, r ∈ rows df →
        ∃ v, get_cell REQUESTED_COLUMNS r Name = Txt v
             ∧ strip v = v ∧ ¬ ws_pair_in v) →
  select_and_order_columns df = df.
Proof.
  destruct df as [cols rs]. cbn [columns rows]. intros -> Hrect Hnames.
  unfold select_and_order_columns. rewrite ensure_columns_present.
  unfold normalize_name_column. cbn [columns rows].
  rewrite Name_requested.
  unfold select_columns. cbn [columns rows]. f_equal.
  rewrite map_map. apply map_fixed. intros r Hr.
  assert (Hlen : length r = length REQUESTED_COLUMNS).
  { unfold rectangular in Hrect. cbn [columns rows] in Hrect.
    rewrite Forall_forall in Hrect. by apply Hrect. }
  rewrite alter_fixed.
  - apply reindex_self; [apply REQUESTED_COLUMNS_NoDup | done].
  - intros x Hx. destruct (Hnames r Hr) as (v & Hv & Hs & Hno).
    unfold get_cell in Hv. rewrite Name_requested, Hx in Hv.
    simpl in Hv. subst x. by apply clean_name_fixed.
Qed.

(** What the normaliser returns is in normal form. *)
Lemma select_and_order_columns_normal (df : DataFrame) :
  rectangular df →
  let out := select_and_order_columns df in
  columns out = REQUESTED_COLUMNS
  ∧ rectangular out
  ∧ ∀ r, r ∈ rows out →
         ∃ v, get_cell REQUESTED_COLUMNS r Name = Txt v
              ∧ strip v = v ∧ ¬ ws_pair_in v.
Proof.
  intros Hrect out. destruct (ensure_columns_spec df) as [Hr Hreq].
  specialize (Hr Hrect). set (e := ensure_columns df) in *.
  assert (Hname : Name ∈ columns e).
  { apply Hreq. apply (bool_decide_unpack (Name ∈ REQUESTED_COLUMNS)).
    vm_compute. exact I. }
  destruct (col_index_Some _ _ Hname) as (i & Hi & _).
  unfold out, select_and_order_columns, select_columns. fold e.
  unfold normalize_name_column. rewrite Hi. cbn [columns rows].
  split; [done|]. split.
  - unfold rectangular. cbn [columns rows]. rewrite map_map, map_fmap.
    apply Forall_fmap, Forall_forall. intros r _. unfold compose.
    unfold reindex_row. by rewrite length_map.
  - intros r. rewrite map_map, map_fmap, list_elem_of_fmap.
    intros (r0 & -> & Hr0). unfold reindex_row.
    rewrite get_cell_map.
    2:{ apply (bool_decide_unpack (Name ∈ REQUESTED_COLUMNS)).
        vm_compute. exact I. }
    rewrite normalize_name_cell; [apply clean_name_clean | done |].
    unfold rectangular in Hr. rewrite Forall_forall in Hr. by apply Hr.
Qed.

(** C9: the normaliser is idempotent.  Applied to what it returned, it
    returns the same frame; and more generally a frame whose columns are
    the requested columns and whose [Name] values are trimmed texts without
    a run of two or more whitespace characters is returned as it is. *)
Theorem C9_normalizer_idempotent :
  (∀ df, rectangular df →
         select_and_order_columns (select_and_order_columns df)
         = select_and_order_columns df)
  ∧ (∀ df, columns df = REQUESTED_COLUMNS →
           rectangular df →
           (∀ r, r ∈ rows df →
                 ∃ v, get_cell REQUESTED_COLUMNS r Name = Txt v
                      ∧ strip v = v ∧ ¬ ws_pair_in v) →
           select_and_order_columns df = df).
Proof.
  split; [|apply normalized_fixed].
  intros df Hrect.
  destruct (select_and_order_columns_normal df Hrect) as (H1 & H2 & H3).
  by apply normalized_fixed.
Qed.

Lemma C9_normalizer_idempotent_witness :
  let df := merge_frames [strip_columns Site.results1; Site.results2] in
  rectangular df
  ∧ select_and_order_columns df ≠ df
  ∧ select_and_order_columns (select_and_order_columns df)
    = select_and_order_columns df.
Proof.
  intros df.
  assert (H : rectangular df).
  { apply (bool_decide_unpack (rectangular df)). vm_compute. exact I. }
  split; [exact H|]. split; [vm_compute; discriminate|].
  exact (proj1 C9_normalizer_idempotent df H).
Defined.

(** ** The scrape loop *)

Lemma visits_app (us : list pystr) (u : pystr) :
  visits (us ++ [u]) = visits us ++ [Visit u; Get u].
Proof. unfold visits. by rewrite flat_map_app. Qed.

Lemma gets_visits (us : list pystr) : gets (visits us) = us.
Proof.
  unfold gets, visits. induction us as [|u us IH]; [done|].
  simpl. f_equal. exact IH.
Qed.

Section Loop.

Variable fetch_html : pystr → option pystr.
Variable read_html : pystr → option (list DataFrame).
Variable soup_anchors : pystr → list Anchor.

Local Abbreviation run' := (run fetch_html read_html soup_anchors).
Local Abbreviation iterate' := (iterate fetch_html read_html soup_anchors).
Local Abbreviation table := (page_table fetch_html read_html).
Local Abbreviation after := (after_pages fetch_html read_html).

Lemma loop_cond_Some (st : LoopState) (u : pystr) :
  loop_cond st = Some u → url st = Some u ∧ u ≠ [] ∧ u ∉ visited st.
Proof.
  unfold loop_cond. destruct (url st) as [v|]; [|done].
  destruct v as [|c v]; [done|]. simpl. case_bool_decide; [|done].
  intros [= <-]. done.
Qed.

Lemma iterate_after (us : list pystr) (st : LoopState) :
  after us st →
  match iterate' st with
  | Break => loop_cond st = None
  | Continue st' | Raise st' =>
    ∃ u, loop_cond st = Some u ∧ after (us ++ [u]) st'
  end.
Proof.
  intros (Htr & Hnd & Hvis & Hfr). unfold iterate.
  destruct (loop_cond st) as [u|] eqn:Hcond; [|done].
  apply loop_cond_Some in Hcond as (_ & _ & Hnew).
  assert (Hnd' : NoDup (us ++ [u])).
  { apply NoDup_app. split; [done|]. split; [|apply NoDup_singleton].
    intros x Hx ->%list_elem_of_singleton. apply Hnew. rewrite Hvis.
    by apply elem_of_list_to_set. }
  assert (Hvis' : {[u]} ∪ visited st = list_to_set (us ++ [u])).
  { rewrite Hvis, list_to_set_app_L. simpl.
    rewrite (right_id_L ∅ (∪)). apply (comm_L (∪)). }
  assert (Hfr' : ∀ fs, fs = strip_columns <$> omap table [u] →
                       all_frames st ++ fs
                       = strip_columns <$> omap table (us ++ [u])).
  { intros fs ->. by rewrite omap_app, fmap_app, Hfr. }
  unfold loop_body.
  destruct (fetch_html u) as [html|] eqn:Hfetch.
  - exists u. split; [done|]. unfold after_pages. cbn [trace visited all_frames].
    rewrite visits_app, Htr.
    split; [done|]. split; [done|]. split; [done|].
    rewrite <- (Hfr' (match extract_results_table read_html html with
                      | Some df => if df_empty df then [] else [strip_columns df]
                      | None => []
                      end)).
    + destruct (extract_results_table read_html html) as [df|];
        [destruct (df_empty df)|]; by rewrite ?app_nil_r.
    + cbn [omap list_omap]. unfold page_table. rewrite Hfetch.
      destruct (extract_results_table read_html html) as [df|];
        [destruct (df_empty df)|]; done.
  - exists u. split; [done|]. unfold after_pages. cbn [trace visited all_frames].
    rewrite visits_app, Htr.
    split; [done|]. split; [done|]. split; [done|].
    rewrite <- (Hfr' []); [by rewrite app_nil_r|].
    cbn [omap list_omap]. unfold page_table. by rewrite Hfetch.
Qed.

Lemma run_after (fuel : nat) (us : list pystr) (st : LoopState) :
  after us st → ∃ more, after (us ++ more) (snd (run' fuel st)).
Proof.
  revert us st. induction fuel as [|fuel IH]; intros us st Hafter; simpl.
  - exists []. by rewrite app_nil_r.
  - pose proof (iterate_after us st Hafter) as Hit.
    cbn [run].
    destruct (iterate fetch_html read_html soup_anchors st) as [st'| |st'].
    + destruct Hit as (u & _ & Hafter'). destruct (IH _ _ Hafter') as [more H].
      exists (u :: more). rewrite <- (app_assoc us [u] more) in H. exact H.
    + exists []. by rewrite app_nil_r.
    + destruct Hit as (u & _ & Hafter'). exists [u]. done.
Qed.

Lemma initial_after (start : pystr) : after [] (initial start).
Proof. repeat split. apply NoDup_nil_2. Qed.

Lemma run_initial (fuel : nat) (start : pystr) :
  ∃ us, after us (snd (run' fuel (initial start)))
        ∧ (us = [] ∨ head us = Some start).
Proof.
  destruct fuel as [|fuel].
  { exists []. split; [apply initial_after | by left]. }
  pose proof (iterate_after [] _ (initial_after start)) as Hit.
  cbn [run].
  destruct (iterate fetch_html read_html soup_anchors (initial start))
    as [st'| |st'].
  - destruct Hit as (u & Hu & Hafter').
    apply loop_cond_Some in Hu as ([= <-] & _).
    destruct (run_after fuel _ _ Hafter') as [more H].
    exists (start :: more). split; [exact H | by right].
  - exists []. split; [apply initial_after | by left].
  - destruct Hit as (u & Hu & Hafter').
    apply loop_cond_Some in Hu as ([= <-] & _).
    exists [start]. split; [exact Hafter' | by right].
Qed.

(** The loop stops after a page whose next link is absent or visited. *)
Lemma run_stops (st : LoopState) (u html : pystr) (n : nat) :
  loop_cond st = Some u →
  fetch_html u = Some html →
  (∀ v, find_next_page_url soup_anchors html u = Some v →
        v ∈ visited st ∨ v = u) →
  ∃ st', run' (S (S n)) st = (Finished, st')
         ∧ trace st' = trace st ++ [Visit u; Get u]
         ∧ visited st' = {[u]} ∪ visited st.
Proof.
  intros Hcond Hfetch Hnext.
  cbn [run]. unfold iterate at 1. rewrite Hcond. unfold loop_body.
  rewrite Hfetch.
  match goal with
  | |- context [iterate _ _ _ ?s] => set (st1 := s)
  end.
  exists st1.
  assert (Hend : iterate fetch_html read_html soup_anchors st1 = Break).
  { unfold iterate, loop_cond. cbn [url visited st1].
    destruct (find_next_page_url soup_anchors html u) as [v|]; [|done].
    rewrite (bool_decide_eq_false_2 (v ∉ {[u]} ∪ visited st)).
    - by rewrite andb_false_r.
    - intros Hv. apply Hv. apply elem_of_union.
      destruct (Hnext v eq_refl) as [?| ->]; [by right|].
      left. by apply elem_of_singleton. }
  rewrite Hend. done.
Qed.

End Loop.

(** C2: no URL is fetched more than once.  Whatever the loop has done after
    any number of turns from the start URL, its steps are, for a list of
    pages without repetition, the pair "add to [visited], then GET" for
    each page in turn, so every GET comes right after the URL is added to
    [visited]; the visited set is the set of these pages, the first of
    which is the start URL.  And when the page at the current URL is
    fetched and its next-page URL is absent, or is in the visited set, or is
    the current URL itself, the loop ends after this page with this one GET
    and no further one. *)
Theorem C2_no_url_fetched_twice
    (fetch_html : pystr → option pystr)
    (read_html : pystr → option (list DataFrame))
    (soup_anchors : pystr → list Anchor) :
  (∀ fuel start,
     let st := snd (run fetch_html read_html soup_anchors fuel (initial start)) in
     ∃ us, trace st = visits us
           ∧ gets (trace st) = us
           ∧ NoDup us
           ∧ (∀ u, u ∈ visited st ↔ u ∈ us)
           ∧ (us = [] ∨ head us = Some start))
  ∧ (∀ st u html n,
       loop_cond st = Some u →
       fetch_html u = Some html →
       (∀ v, find_next_page_url soup_anchors html u = Some v →
             v ∈ visited st ∨ v = u) →
       ∃ st', run fetch_html read_html soup_anchors (S (S n)) st = (Finished, st')
              ∧ trace st' = trace st ++ [Visit u; Get u]
              ∧ visited st' = {[u]} ∪ visited st).
Proof.
  split.
  - intros fuel start st.
    destruct (run_initial fetch_html read_html soup_anchors fuel start)
      as (us & (Htr & Hnd & Hvis & _) & Hhead).
    exists us. fold st in Htr, Hvis. split; [done|].
    split; [by rewrite Htr, gets_visits|]. split; [done|]. split; [|done].
    intros u. rewrite Hvis. apply elem_of_list_to_set.
  - intros st u html n. apply run_stops.
Qed.

Lemma C2_no_url_fetched_twice_witness :
  let run1 := run Site.fetch_html Site.read_html Site.soup_anchors in
  let st := snd (run1 1 (initial Site.url1)) in
  loop_cond st = Some Site.url2
  ∧ Site.fetch_html Site.url2 = Some Site.html2
  ∧ (∀ v, find_next_page_url Site.soup_anchors Site.html2 Site.url2 = Some v →
          v ∈ visited st ∨ v = Site.url2)
  ∧ gets (trace (snd (run1 7 (initial Site.url1)))) = [Site.url1; Site.url2]
  ∧ NoDup (gets (trace (snd (run1 7 (initial Site.url1)))))
  ∧ ∃ st', run1 2 st = (Finished, st')
           ∧ trace st' = trace st ++ [Visit Site.url2; Get Site.url2].
Proof.
  intros run1 st.
  assert (H1 : loop_cond st = Some Site.url2) by (vm_compute; reflexivity).
  assert (H2 : Site.fetch_html Site.url2 = Some Site.html2)
    by (vm_compute; reflexivity).
  assert (H3 : ∀ v, find_next_page_url Site.soup_anchors Site.html2
                                       Site.url2 = Some v →
                    v ∈ visited st ∨ v = Site.url2).
  { intros v Hv. left.
    assert (Hn : find_next_page_url Site.soup_anchors Site.html2 Site.url2
                 = Some Site.url1) by (vm_compute; reflexivity).
    rewrite Hn in Hv. injection Hv as <-.
    apply (bool_decide_unpack (Site.url1 ∈ visited st)). vm_compute. exact I. }
  destruct (C2_no_url_fetched_twice Site.fetch_html Site.read_html
                                    Site.soup_anchors) as [Hall Hstop].
  split; [exact H1|]. split; [exact H2|]. split; [exact H3|].
  split; [vm_compute; reflexivity|]. split.
  - destruct (Hall 7 Site.url1) as (us & _ & Hg & Hnd & _).
    fold run1 in Hg. rewrite Hg. exact Hnd.
  - destruct (Hstop st Site.url2 Site.html2 0 H1 H2 H3) as (st' & Hr & Ht & _).
    exists st'. split; [exact Hr | exact Ht].
Defined.

(** ** The whole run *)

Lemma df_empty_false (df : DataFrame) :
  df_empty df = false ↔ rows df ≠ [] ∧ columns df ≠ [].
Proof.
  unfold df_empty. rewrite orb_false_iff, !Nat.eqb_neq.
  destruct (rows df), (columns df); simpl; split; intros [? ?]; done.
Qed.

Lemma merge_frames_not_empty (frames : list DataFrame) :
  frames ≠ [] →
  Forall (fun f => df_empty f = false) frames →
  df_empty (merge_frames frames) = false.
Proof.
  destruct frames as [|f fs]; [done|]. intros _ Hall.
  apply Forall_cons in Hall as [[Hrows Hcols]%df_empty_false _].
  apply df_empty_false. set (big := pd_concat (f :: fs)).
  assert (Hc : columns big ≠ []).
  { destruct (columns f) as [|c cs] eqn:Hcs; [done|].
    destruct (union_columns_spec (f :: fs)) as [_ Hin].
    assert (c ∈ columns big) as Hcin.
    { apply Hin. exists f. split; [left|]. rewrite Hcs. left. }
    intros Heq. rewrite Heq in Hcin. by apply not_elem_of_nil in Hcin. }
  assert (Hr : ∃ r rs, rows big = r :: rs).
  { destruct (rows f) as [|r rs] eqn:Hrs; [done|].
    unfold big, pd_concat, reindexed. cbn [rows flat_map]. rewrite Hrs.
    simpl. eauto. }
  unfold merge_frames. fold big. destruct (nonempty (dedup_cols big)); [|
    destruct Hr as (r & rs & ->); done].
  split; [|done]. destruct Hr as (r & rs & Hr).
  unfold drop_duplicates, duplicated. cbn [rows]. rewrite Hr.
  cbn [List.map duplicated_from].
  rewrite bool_decide_eq_false_2 by apply not_elem_of_nil. done.
Qed.

Lemma omap_nil_Forall {A B} (f : A → option B) (l : list A) :
  omap f l = [] ↔ Forall (fun x => f x = None) l.
Proof.
  induction l as [|x l IH]; simpl; [split; [constructor | done]|].
  destruct (f x) eqn:Hx; split.
  - done.
  - intros [? _]%Forall_cons. congruence.
  - intros H. constructor; [done|]. by apply IH.
  - intros [_ H]%Forall_cons. by apply IH.
Qed.

(** C5: let the loop have finished from the start URL.  If on none of the
    fetched pages a non-empty table was found, [main] prints its
    diagnostic line on standard error, writes no file and returns 1.
    Otherwise the merged frame is not empty, [main] writes the normalised
    frame to the output file, prints on standard output the line that
    reports the number of written rows and the destination, and returns
    0. *)
Theorem C5_exit_codes
    (fetch_html : pystr → option pystr)
    (read_html : pystr → option (list DataFrame))
    (soup_anchors : pystr → list Anchor)
    (fuel : nat) (args_url args_output : pystr) (st : LoopState) :
  run fetch_html read_html soup_anchors fuel (initial args_url)
  = (Finished, st) →
  let pages := gets (trace st) in
  let result := main fetch_html read_html soup_anchors fuel args_url args_output in
  (Forall (fun u => page_table fetch_html read_html u = None) pages →
   result = Returned (1%Z, [Stderr no_data_message]))
  ∧ (Exists (fun u => page_table fetch_html read_html u ≠ None) pages →
     ∃ df_all,
       scrape_all_pages fetch_html read_html soup_anchors fuel args_url
       = Returned df_all
       ∧ df_empty df_all = false
       ∧ result
         = Returned
             (0%Z,
              [WriteCsv (select_and_order_columns df_all) args_output;
               Stdout (py "Wrote "
                       ++ py_str_nat (length (rows (select_and_order_columns df_all)))
                       ++ py " rows to " ++ args_output)])).
Proof.
  intros Hrun pages result.
  destruct (run_initial fetch_html read_html soup_anchors fuel args_url)
    as (us & (Htr & _ & _ & Hfr) & _).
  rewrite Hrun in Htr, Hfr. cbn [snd] in Htr, Hfr.
  assert (Hpages : pages = us) by (unfold pages; by rewrite Htr, gets_visits).
  rewrite Hpages. unfold result, main, scrape_all_pages. rewrite Hrun.
  split.
  - intros Hnone%omap_nil_Forall. rewrite Hfr, Hnone. done.
  - intros Hsome.
    assert (Hne : all_frames st ≠ []).
    { rewrite Hfr. intros Heq%fmap_nil_inv.
      apply omap_nil_Forall in Heq. apply Exists_exists in Hsome
        as (u & Hu & Hnot). rewrite Forall_forall in Heq. by apply Hnot, Heq. }
    assert (Hall : Forall (fun f => df_empty f = false) (all_frames st)).
    { rewrite Hfr. apply Forall_fmap, Forall_forall.
      intros df (u & Hu & Hdf)%list_elem_of_omap. simpl.
      unfold page_table in Hdf. destruct (fetch_html u) as [html|]; [|done].
      destruct (extract_results_table read_html html) as [d|]; [|done].
      destruct (df_empty d) eqn:Hd; [done|]. injection Hdf as <-.
      unfold df_empty, strip_columns in *. cbn [rows columns].
      by rewrite length_map. }
    pose proof (merge_frames_not_empty _ Hne Hall) as Hmerge.
    destruct (all_frames st) as [|f fs] eqn:Hframes; [done|].
    cbn [nonempty]. exists (merge_frames (f :: fs)).
    split; [done|]. split; [done|]. by rewrite Hmerge.
Qed.

Lemma C5_exit_codes_witness :
  let scrape := run Site.fetch_html Site.read_html Site.soup_anchors in
  let bare := run Site.fetch_html Site.no_tables Site.soup_anchors in
  fst (scrape 7 (initial Site.url1)) = Finished
  ∧ fst (bare 7 (initial Site.url1)) = Finished
  ∧ main Site.fetch_html Site.no_tables Site.soup_anchors 7 Site.url1
         (py "out.csv")
    = Returned (1%Z, [Stderr no_data_message])
  ∧ ∃ df_all,
      df_empty df_all = false
      ∧ main Site.fetch_html Site.read_html Site.soup_anchors 7 Site.url1
             (py "out.csv")
        = Returned
            (0%Z,
             [WriteCsv (select_and_order_columns df_all) (py "out.csv");
              Stdout (py "Wrote "
                      ++ py_str_nat (length (rows (select_and_order_columns df_all)))
                      ++ py " rows to " ++ py "out.csv")]).
Proof.
  intros scrape bare.
  assert (H1 : scrape 7 (initial Site.url1)
               = (Finished, snd (scrape 7 (initial Site.url1)))).
  { apply injective_projections; [vm_compute; reflexivity | reflexivity]. }
  assert (H2 : bare 7 (initial Site.url1)
               = (Finished, snd (bare 7 (initial Site.url1)))).
  { apply injective_projections; [vm_compute; reflexivity | reflexivity]. }
  split; [by rewrite H1|]. split; [by rewrite H2|]. split.
  - apply (proj1 (C5_exit_codes _ _ _ _ _ (py "out.csv") _ H2)).
    apply Forall_forall. intros u _. unfold page_table.
    by destruct (Site.fetch_html u).
  - destruct (proj2 (C5_exit_codes _ _ _ _ _ (py "out.csv") _ H1))
      as (df_all & _ & Hne & Hmain).
    + apply Exists_exists. exists Site.url1. split.
      * apply (bool_decide_unpack
                 (Site.url1 ∈ gets (trace (snd (scrape 7 (initial Site.url1)))))).
        vm_compute. exact I.
      * vm_compute. discriminate.
    + exists df_all. split; [exact Hne | exact Hmain].
Defined.

Example main_on_site :
  match main Site.fetch_html Site.read_html Site.soup_anchors 7 Site.url1
             (py "out.csv") with
  | Returned (code, [WriteCsv df out_file; Stdout line]) =>
    code = 0%Z ∧ columns df = REQUESTED_COLUMNS
    ∧ List.map (fun r => get_cell (columns df) r Name) (rows df)
      = [Site.t "Alice Smith"; Site.t "Bob Jones"; Site.t "Carol"]
    ∧ line = py "Wrote 3 rows to out.csv"
  | _ => False
  end.
Proof. vm_compute. repeat split. Qed.


(** * Further properties of the code *)

(** ** The extractor *)

Lemma last_rev {A} (l : list A) : last (rev l) = head l.
Proof. destruct l as [|x l]; [done|]. simpl. by rewrite last_snoc. Qed.

Lemma strip_head (s : pystr) (x : N) :
  head (strip s) = Some x → py_isspace x = false.
Proof.
  intros H. destruct (rstrip_prefix (lstrip s)) as [post Hpost].
  fold (strip s) in Hpost.
  pose proof (drop_while_head py_isspace s) as Hh. fold (lstrip s) in Hh.
  rewrite Hpost in Hh. destruct (strip s) as [|y t]; [done|].
  simpl in H. injection H as ->. done.
Qed.

Lemma strip_last (s : pystr) (x : N) :
  last (strip s) = Some x → py_isspace x = false.
Proof.
  unfold strip, rstrip. rewrite last_rev. intros H.
  pose proof (drop_while_head py_isspace (rev (lstrip s))) as Hh.
  destruct (drop_while py_isspace (rev (lstrip s))) as [|y t]; [done|].
  simpl in H. injection H as ->. done.
Qed.

(** X1: the extractor returns nothing exactly when the parse raises (no
    table on the page) or yields no table; whenever the parse yields at
    least one table, some table is returned, whatever its score. *)
Theorem X1_extract_nothing_iff_no_table
    (read_html : pystr → option (list DataFrame)) (html : pystr) :
  extract_results_table read_html html = None
  ↔ read_html html = None ∨ read_html html = Some [].
Proof.
  unfold extract_results_table.
  destruct (read_html html) as [tables|]; [|by split; [left|]].
  cbn zeta. rewrite fallback_never_needed.
  destruct (decide (tables = [])) as [->|Hne].
  - split; [by right | done].
  - destruct (scoring_pass_spec tables Hne) as (i & t & _ & -> & _).
    cbn [fst]. split; [done|]. intros [?|[= ?]]; done.
Qed.

(** X2: the table that the extractor returns is one of the parsed tables
    with the same rows, its labels are the trimmed labels of that table,
    and no label of it starts or ends with a whitespace character. *)
Theorem X2_extracted_labels_trimmed
    (read_html : pystr → option (list DataFrame)) (html : pystr)
    (df : DataFrame) :
  extract_results_table read_html html = Some df →
  ∃ tables t,
    read_html html = Some tables
    ∧ t ∈ tables
    ∧ columns df = List.map strip (columns t)
    ∧ rows df = rows t
    ∧ ∀ l x, l ∈ columns df → head l = Some x ∨ last l = Some x →
             py_isspace x = false.
Proof.
  unfold extract_results_table.
  destruct (read_html html) as [tables|]; [|done].
  cbn zeta. rewrite fallback_never_needed.
  destruct (decide (tables = [])) as [->|Hne]; [done|].
  destruct (scoring_pass_spec tables Hne) as (i & t & Hi & -> & _).
  cbn [fst]. intros [= <-]. exists tables, t. split; [done|].
  split; [by apply list_elem_of_lookup_2 in Hi|]. split; [done|].
  split; [done|]. cbn [columns strip_columns].
  intros l x Hl Hx. rewrite map_fmap in Hl.
  apply list_elem_of_fmap in Hl as (l0 & -> & _).
  destruct Hx as [Hx|Hx]; [by apply strip_head in Hx | by apply strip_last in Hx].
Qed.

Lemma X2_extracted_labels_trimmed_witness :
  extract_results_table Site.read_html Site.html1
  = Some (strip_columns Site.results1)
  ∧ ∃ tables t,
      Site.read_html Site.html1 = Some tables
      ∧ t ∈ tables
      ∧ columns (strip_columns Site.results1) = List.map strip (columns t).
Proof.
  assert (H : extract_results_table Site.read_html Site.html1
              = Some (strip_columns Site.results1)) by (vm_compute; reflexivity).
  split; [exact H|].
  destruct (X2_extracted_labels_trimmed _ _ _ H)
    as (tables & t & H1 & H2 & H3 & _).
  exists tables, t. split; [exact H1|]. split; [exact H2 | exact H3].
Defined.

Lemma filter_length_mono {A} (f g : A → bool) (l : list A) :
  (∀ x, f x = true → g x = true) →
  length (List.filter f l) ≤ length (List.filter g l).
Proof.
  intros H. induction l as [|x l IH]; simpl; [done|].
  destruct (f x) eqn:Hf.
  - rewrite (H x Hf). simpl. lia.
  - destruct (g x); simpl; lia.
Qed.

(** X3: the score of a table lies between 0 and 9, and a table that has
    all the labels of another table scores at least as much. *)
Theorem X3_score_bounds_monotone (df df' : DataFrame) :
  (0 <= score df <= 9)%Z
  ∧ ((∀ c, c ∈ columns df → c ∈ columns df') → (score df <= score df')%Z).
Proof.
  split.
  - split; [apply score_nonneg|]. unfold score.
    pose proof (filter_length_mono
                  (fun token => existsb (py_in token) (columns df))
                  (fun _ => true) typical_headers (fun _ _ => eq_refl)) as H.
    assert (Hall : List.filter (fun _ : pystr => true) typical_headers
                   = typical_headers) by done.
    rewrite Hall in H. change (length typical_headers) with 9 in H. lia.
  - intros Hsub. unfold score. apply inj_le, filter_length_mono.
    intros token (col & Hcol & Hin)%existsb_exists. apply existsb_exists.
    exists col. split; [|done].
    apply list_elem_of_In, Hsub, list_elem_of_In, Hcol.
Qed.

(** X4: [max(tables, key=len)], the table of the fallback branch, is for a
    list that is not empty a table of the list with the largest number of
    rows, and the earliest such table. *)
Theorem X4_largest_table_spec (tables : list DataFrame) :
  tables ≠ [] →
  ∃ i t, tables !! i = Some t
    ∧ largest_table tables = Some t
    ∧ (∀ j t', tables !! j = Some t' → df_len t' ≤ df_len t)
    ∧ (∀ j t', j < i → tables !! j = Some t' → df_len t' < df_len t).
Proof.
  destruct tables as [|t0 ts]; [done|]. intros _. unfold largest_table.
  induction ts as [|x ts IH] using rev_ind.
  - exists 0, t0. split; [done|]. split; [done|]. split; [|intros; lia].
    intros [|j] t' H; simpl in H; [|done]. injection H as ->. lia.
  - destruct IH as (i & t & Hi & [= Hfold] & Hmax & Hfirst).
    rewrite fold_left_app, Hfold. cbn [fold_left].
    destruct (Nat.ltb_spec (df_len t) (df_len x)).
    + exists (S (length ts)), x.
      split; [simpl; by apply list_lookup_middle|].
      split; [done|]. split.
      * intros j t' H'. change (t0 :: ts ++ [x]) with ((t0 :: ts) ++ [x]) in H'.
        apply lookup_app_Some in H' as [H'|[_ H']].
        -- specialize (Hmax _ _ H'). lia.
        -- destruct (j - length (t0 :: ts)); simpl in H'; [|done].
           injection H' as ->. lia.
      * intros j t' Hj H'. change (t0 :: ts ++ [x]) with ((t0 :: ts) ++ [x]) in H'.
        rewrite lookup_app_l in H' by (simpl; lia).
        specialize (Hmax _ _ H'). lia.
    + exists i, t.
      split; [change (t0 :: ts ++ [x]) with ((t0 :: ts) ++ [x]);
              by apply lookup_app_l_Some|].
      split; [done|]. split.
      * intros j t' H'. change (t0 :: ts ++ [x]) with ((t0 :: ts) ++ [x]) in H'.
        apply lookup_app_Some in H' as [H'|[_ H']]; [eauto|].
        destruct (j - length (t0 :: ts)); simpl in H'; [|done].
        injection H' as ->. lia.
      * intros j t' Hj H'. apply Hfirst with j; [done|].
        apply lookup_lt_Some in Hi.
        change (t0 :: ts ++ [x]) with ((t0 :: ts) ++ [x]) in H'.
        rewrite lookup_app_l in H' by lia. done.
Qed.

Lemma X4_largest_table_spec_witness :
  [Site.results1; Site.nav; Site.results2] ≠ []
  ∧ largest_table [Site.results1; Site.nav; Site.results2] = Some Site.nav
  ∧ ∃ i t, [Site.results1; Site.nav; Site.results2] !! i = Some t
           ∧ largest_table [Site.results1; Site.nav; Site.results2] = Some t.
Proof.
  assert (H : [Site.results1; Site.nav; Site.results2] ≠ []) by discriminate.
  split; [exact H|]. split; [vm_compute; reflexivity|].
  destruct (X4_largest_table_spec _ H) as (i & t & Hi & Ht & _).
  exists i, t. split; [exact Hi | exact Ht].
Defined.

(** ** The pagination detector *)

Lemma text_scan_cons (cur : pystr) (a : Anchor) (rest : list Anchor) :
  text_scan cur (a :: rest)
  = if link_by_text a then Url.urljoin cur <$> get_href a
    else text_scan cur rest.
Proof.
  cbn [text_scan]. unfold link_by_text.
  destruct (str_in (lower (strip (a_text a))) possible_texts); [|done].
  by destruct (get_href a).
Qed.

Lemma link_by_text_href (a : Anchor) :
  link_by_text a = true → ∃ h, get_href a = Some h.
Proof.
  unfold link_by_text. intros [_ H]%andb_true_iff.
  destruct (get_href a) as [h|]; [by exists h | done].
Qed.

(** X5: the scan by text returns the resolved target of the first anchor,
    in document order, whose trimmed lower-cased text is a next-page phrase
    and that has a target; anchors before it that fail either condition
    are passed over. *)
Theorem X5_text_scan_first_in_document_order
    (cur : pystr) (soup : list Anchor) (u : pystr) :
  text_scan cur soup = Some u
  ↔ ∃ pre a post h,
      soup = pre ++ a :: post
      ∧ Forall (fun b => link_by_text b = false) pre
      ∧ link_by_text a = true
      ∧ get_href a = Some h
      ∧ u = Url.urljoin cur h.
Proof.
  revert u. induction soup as [|a soup IH]; intros u.
  - split; [done|]. intros (pre & b & post & h & H & _). by destruct pre.
  - rewrite text_scan_cons. destruct (link_by_text a) eqn:Ha.
    + destruct (link_by_text_href a Ha) as [h Hh]. rewrite Hh. cbn. split.
      * intros [= <-]. exists [], a, soup, h. done.
      * intros (pre & b & post & h' & H & Hpre & Hb & Hh' & ->).
        destruct pre as [|c pre]; simpl in H; injection H as -> ->.
        -- congruence.
        -- apply Forall_cons in Hpre as [? _]. congruence.
    + rewrite IH. split.
      * intros (pre & b & post & h & -> & Hpre & Hb & Hh & ->).
        exists (a :: pre), b, post, h. split; [done|].
        split; [by constructor | done].
      * intros (pre & b & post & h & H & Hpre & Hb & Hh & ->).
        destruct pre as [|c pre]; simpl in H; injection H as -> ->.
        -- congruence.
        -- apply Forall_cons in Hpre as [_ Hpre]. by exists pre, b, post, h.
Qed.

Lemma text_scan_None (cur : pystr) (soup : list Anchor) :
  text_scan cur soup = None ↔ Forall (fun a => link_by_text a = false) soup.
Proof.
  induction soup as [|a soup IH]; [split; [constructor | done]|].
  rewrite text_scan_cons, Forall_cons. destruct (link_by_text a) eqn:Ha.
  - destruct (link_by_text_href a Ha) as [h ->]. split; [done | by intros [? _]].
  - rewrite IH. tauto.
Qed.

Lemma find_first {A} (f : A → bool) (pre post : list A) (x : A) :
  Forall (fun y => f y = false) pre → f x = true →
  List.find f (pre ++ x :: post) = Some x.
Proof.
  intros Hpre Hx. induction Hpre as [|y pre Hy _ IH]; simpl.
  - by rewrite Hx.
  - by rewrite Hy.
Qed.

Lemma find_next_page_url_None
    (soup_anchors : pystr → list Anchor) (html cur : pystr) :
  find_next_page_url soup_anchors html cur = None
  ↔ find_rel_next (soup_anchors html) ≫= get_href = None
    ∧ Forall (fun a => link_by_text a = false) (soup_anchors html).
Proof.
  unfold find_next_page_url.
  destruct (find_rel_next (soup_anchors html) ≫= get_href) as [h|].
  - split; [done | by intros [? _]].
  - rewrite text_scan_None. tauto.
Qed.

(** X6: the detector returns nothing exactly when the first [rel="next"]
    anchor is missing or has no target and no anchor qualifies in the scan
    by text.  And the first anchor that has [next] among its [rel] values,
    if it has a target, decides the result, whatever the texts of the
    anchors around it. *)
Theorem X6_detector_nothing_iff_and_rel_first
    (soup_anchors : pystr → list Anchor) (html cur : pystr) :
  (find_next_page_url soup_anchors html cur = None
   ↔ find_rel_next (soup_anchors html) ≫= get_href = None
     ∧ Forall (fun a => link_by_text a = false) (soup_anchors html))
  ∧ (∀ pre link post h,
       soup_anchors html = pre ++ link :: post →
       Forall (fun a => py "next" ∉ a_rel a) pre →
       py "next" ∈ a_rel link →
       get_href link = Some h →
       find_next_page_url soup_anchors html cur = Some (Url.urljoin cur h)).
Proof.
  split; [apply find_next_page_url_None|].
  intros pre link post h Hsoup Hpre Hlink Hh.
  unfold find_next_page_url, find_rel_next. rewrite Hsoup, find_first.
  - cbn. by rewrite Hh.
  - eapply Forall_impl; [exact Hpre|]. intros a Ha. cbn beta in *.
    destruct (str_in (py "next") (a_rel a)) eqn:Hin; [|done].
    by apply str_in_spec in Hin.
  - by apply str_in_spec.
Qed.

Lemma X6_detector_nothing_iff_and_rel_first_witness :
  let soup := fun _ : pystr =>
                [mkA [] (Some (py "/x")) (py "next");
                 mkA [py "nofollow"; py "next"] (Some (py "/y")) (py "2")] in
  Forall (fun a => py "next" ∉ a_rel a) [mkA [] (Some (py "/x")) (py "next")]
  ∧ py "next" ∈ [py "nofollow"; py "next"]
  ∧ find_next_page_url soup [] (py "http://h/a")
    = Some (Url.urljoin (py "http://h/a") (py "/y")).
Proof.
  intros soup.
  assert (H1 : Forall (fun a => py "next" ∉ a_rel a)
                      [mkA [] (Some (py "/x")) (py "next")]).
  { constructor; [|constructor]. cbn. apply not_elem_of_nil. }
  assert (H2 : py "next" ∈ [py "nofollow"; py "next"]).
  { right. left. }
  split; [exact H1|]. split; [exact H2|].
  exact (proj2 (X6_detector_nothing_iff_and_rel_first soup [] (py "http://h/a"))
               [mkA [] (Some (py "/x")) (py "next")]
               (mkA [py "nofollow"; py "next"] (Some (py "/y")) (py "2"))
               [] (py "/y") eq_refl H1 H2 eq_refl).
Defined.

Lemma drop_while_app_all {A} (p : A → bool) (pre l : list A) :
  Forall (fun x => p x = true) pre → drop_while p (pre ++ l) = drop_while p l.
Proof.
  intros H. induction H as [|x pre Hx _ IH]; simpl; [done|]. by rewrite Hx.
Qed.

Lemma head_rev {A} (l : list A) : head (rev l) = last l.
Proof. by rewrite <- last_rev, rev_involutive. Qed.

(** Trimming removes exactly the whitespace around a text that neither
    starts nor ends with whitespace. *)
Lemma strip_padded (pre s post : pystr) :
  trimmed_text s = true →
  Forall (fun c => py_isspace c = true) pre →
  Forall (fun c => py_isspace c = true) post →
  strip (pre ++ s ++ post) = s.
Proof.
  unfold trimmed_text. intros Hs Hpre Hpost.
  destruct (head s) as [x|] eqn:Hhead; [|done].
  destruct (last s) as [y|] eqn:Hlast; [|done].
  apply andb_true_iff in Hs as [Hx%negb_true_iff Hy%negb_true_iff].
  unfold strip, lstrip. rewrite drop_while_app_all by done.
  rewrite (drop_while_id py_isspace (s ++ post)).
  2:{ destruct s as [|x' s]; [done|]. simpl in Hhead. by injection Hhead as ->. }
  unfold rstrip. rewrite rev_app_distr, drop_while_app_all.
  2:{ apply Forall_forall. intros c Hc%list_elem_of_In%in_rev.
      rewrite Forall_forall in Hpost. by apply Hpost, list_elem_of_In. }
  rewrite drop_while_id; [apply rev_involutive|].
  pose proof (head_rev s) as Hr. rewrite Hlast in Hr.
  destruct (rev s) as [|y' t]; [done|]. simpl in Hr. by injection Hr as ->.
Qed.

Lemma possible_texts_normal :
  ∀ p, p ∈ possible_texts → trimmed_text p = true ∧ lower p = p.
Proof.
  assert (H : forallb (fun p => trimmed_text p && bool_decide (lower p = p))
                      possible_texts = true) by (vm_compute; reflexivity).
  rewrite forallb_forall in H. intros p Hp%list_elem_of_In.
  apply H in Hp. apply andb_true_iff in Hp as [? ?%bool_decide_eq_true]. done.
Qed.

(** X7: an anchor with a target whose text is one of the next-page
    phrases with any whitespace around it is taken by the scan by text
    when the scan reaches it. *)
Theorem X7_padded_phrase_recognised
    (cur : pystr) (a : Anchor) (rest : list Anchor) (pre p post h : pystr) :
  a_text a = pre ++ p ++ post →
  p ∈ possible_texts →
  Forall (fun c => py_isspace c = true) pre →
  Forall (fun c => py_isspace c = true) post →
  get_href a = Some h →
  text_scan cur (a :: rest) = Some (Url.urljoin cur h).
Proof.
  intros Htext Hp Hpre Hpost Hh.
  destruct (possible_texts_normal p Hp) as [Htrim Hlow].
  rewrite text_scan_cons. unfold link_by_text.
  rewrite Htext, strip_padded, Hlow, Hh by done.
  apply str_in_spec in Hp. by rewrite Hp.
Qed.

Lemma X7_padded_phrase_recognised_witness :
  let a := mkA [] (Some (py "?p=2")) (py "  next »	") in
  a_text a = py "  " ++ py "next »" ++ py "	"
  ∧ py "next »" ∈ possible_texts
  ∧ text_scan (py "http://h/r") [a] = Some (Url.urljoin (py "http://h/r") (py "?p=2")).
Proof.
  intros a.
  assert (H1 : a_text a = py "  " ++ py "next »" ++ py "	")
    by (vm_compute; reflexivity).
  assert (H2 : py "next »" ∈ possible_texts).
  { apply (bool_decide_unpack (py "next »" ∈ possible_texts)).
    vm_compute. exact I. }
  assert (H3 : Forall (fun c => py_isspace c = true) (py "  ")).
  { apply (bool_decide_unpack
             (Forall (fun c => py_isspace c = true) (py "  "))).
    vm_compute. exact I. }
  assert (H4 : Forall (fun c => py_isspace c = true) (py "	")).
  { apply (bool_decide_unpack
             (Forall (fun c => py_isspace c = true) (py "	"))).
    vm_compute. exact I. }
  split; [exact H1|]. split; [exact H2|].
  exact (X7_padded_phrase_recognised (py "http://h/r") a [] _ _ _ (py "?p=2")
                                     H1 H2 H3 H4 eq_refl).
Defined.


(** ** The scrape loop, further *)

Section LoopMore.

Variable fetch_html : pystr → option pystr.
Variable read_html : pystr → option (list DataFrame).
Variable soup_anchors : pystr → list Anchor.

Local Abbreviation run' := (run fetch_html read_html soup_anchors).
Local Abbreviation iterate' := (iterate fetch_html read_html soup_anchors).
Local Abbreviation next' := (next_of fetch_html soup_anchors).

Lemma gets_snoc (tr : list event) (u : pystr) :
  gets (tr ++ [Visit u; Get u]) = gets tr ++ [u].
Proof. unfold gets. by rewrite omap_app. Qed.

(** what one turn of the loop does *)
Lemma iterate_cases (st : LoopState) :
  match iterate' st with
  | Break => loop_cond st = None
  | Continue st' =>
    ∃ u html, loop_cond st = Some u ∧ fetch_html u = Some html
              ∧ visited st' = {[u]} ∪ visited st
              ∧ url st' = find_next_page_url soup_anchors html u
              ∧ trace st' = trace st ++ [Visit u; Get u]
  | Raise st' =>
    ∃ u, loop_cond st = Some u ∧ fetch_html u = None
         ∧ visited st' = {[u]} ∪ visited st
         ∧ trace st' = trace st ++ [Visit u; Get u]
  end.
Proof.
  unfold iterate. destruct (loop_cond st) as [u|]; [|done].
  unfold loop_body. destruct (fetch_html u) as [html|] eqn:Hf.
  - by exists u, html.
  - by exists u.
Qed.

Lemma run_more (n k : nat) (st : LoopState) :
  fst (run' n st) ≠ Running → run' (n + k) st = run' n st.
Proof.
  revert st. induction n as [|n IH]; intros st; [done|]. cbn [run Nat.add].
  destruct (iterate' st) as [st'| |st']; [apply IH | done | done].
Qed.

Lemma run_bounded (V : gset pystr) (fuel : nat) (st : LoopState) :
  (∀ u html v, fetch_html u = Some html →
               find_next_page_url soup_anchors html u = Some v → v ∈ V) →
  visited st ⊆ V →
  (∀ v, url st = Some v → v ∈ V) →
  size (V ∖ visited st) < fuel →
  fst (run' fuel st) ≠ Running ∧ visited (snd (run' fuel st)) ⊆ V.
Proof.
  intros Hnext. revert st.
  induction fuel as [|fuel IH]; intros st Hvis Hurl Hsize; [lia|].
  cbn [run]. pose proof (iterate_cases st) as Hit.
  destruct (iterate' st) as [st'| |st'].
  - destruct Hit as (u & html & Hcond & Hfetch & Hvis' & Hurl' & _).
    apply loop_cond_Some in Hcond as (Hu & _ & Hnew).
    assert (u ∈ V) as HuV by auto.
    apply IH.
    + rewrite Hvis'. set_solver.
    + intros v Hv. rewrite Hurl' in Hv. eauto.
    + assert (V ∖ visited st' ⊂ V ∖ visited st) as Hsub.
      { rewrite Hvis'. set_solver. }
      apply subset_size in Hsub. lia.
  - done.
  - destruct Hit as (u & Hcond & _ & Hvis' & _).
    apply loop_cond_Some in Hcond as (Hu & _ & _).
    split; [done|]. cbn [snd]. rewrite Hvis'. set_solver.
Qed.

(** X8: the loop ends.  If every next-page URL that the detector can
    return on a fetched page lies in a finite set [U], the loop has
    finished or failed after at most [size U + 2] turns, more turns change
    nothing, and it has fetched at most [size U + 1] pages. *)
Theorem X8_loop_terminates_on_finite_site
    (U : gset pystr) (start : pystr) (n : nat) :
  (∀ u html v, fetch_html u = Some html →
               find_next_page_url soup_anchors html u = Some v → v ∈ U) →
  size U + 2 ≤ n →
  fst (run' n (initial start)) ≠ Running
  ∧ run' n (initial start) = run' (size U + 2) (initial start)
  ∧ scrape_all_pages fetch_html read_html soup_anchors n start ≠ OutOfFuel
  ∧ length (gets (trace (snd (run' n (initial start))))) ≤ size U + 1.
Proof.
  intros Hnext Hn. set (V := {[start]} ∪ U).
  assert (HV : size V ≤ size U + 1).
  { unfold V. rewrite size_union_alt, size_singleton.
    pose proof (subseteq_size (U ∖ {[start]}) U). set_solver by lia. }
  destruct (run_bounded V (size U + 2) (initial start)) as [Hend Hvis].
  { intros u html v Hf Hv. unfold V. specialize (Hnext _ _ _ Hf Hv). set_solver. }
  { cbn. set_solver. }
  { cbn. intros v [= <-]. unfold V. set_solver. }
  { cbn [visited initial].
    pose proof (subseteq_size (V ∖ ∅) V). set_solver by lia. }
  assert (Heq : run' n (initial start) = run' (size U + 2) (initial start)).
  { replace n with (size U + 2 + (n - (size U + 2))) by lia.
    by apply run_more. }
  rewrite Heq. split; [done|]. split; [done|]. split.
  - unfold scrape_all_pages. rewrite Heq.
    destruct (run' (size U + 2) (initial start)) as [[| |] st]; cbn in *;
      try done. by destruct (nonempty (all_frames st)).
  - destruct (run_initial fetch_html read_html soup_anchors (size U + 2) start)
      as (us & (Htr & Hnd & Hv & _) & _).
    rewrite Htr, gets_visits.
    rewrite <- (size_list_to_set (C:=gset pystr) us Hnd), <- Hv.
    pose proof (subseteq_size _ _ Hvis). lia.
Qed.

Lemma run_fetched (fuel : nat) (st : LoopState) :
  Forall (fun v => fetch_html v ≠ None) (gets (trace st)) →
  match run' fuel st with
  | (Failed, st') =>
    ∃ us u, gets (trace st') = us ++ [u] ∧ fetch_html u = None
            ∧ Forall (fun v => fetch_html v ≠ None) us
  | (_, st') => Forall (fun v => fetch_html v ≠ None) (gets (trace st'))
  end.
Proof.
  revert st. induction fuel as [|fuel IH]; intros st Hok; [done|].
  cbn [run]. pose proof (iterate_cases st) as Hit.
  destruct (iterate' st) as [st'| |st'].
  - destruct Hit as (u & html & _ & Hfetch & _ & _ & Htr).
    apply IH. rewrite Htr, gets_snoc. apply Forall_app. split; [done|].
    constructor; [congruence | constructor].
  - done.
  - destruct Hit as (u & _ & Hfetch & _ & Htr).
    exists (gets (trace st)), u. rewrite Htr, gets_snoc. done.
Qed.

(** X9: a failed fetch aborts the run.  When the loop ends by a failure,
    the last GET is the one that failed and all pages before it had been
    fetched; [scrape_all_pages] and [main] then return nothing: the tables
    of the earlier pages are dropped, nothing is printed and no file is
    written.  When the loop finishes, every page it fetched was fetched
    with success. *)
Theorem X9_fetch_failure_aborts
    (fuel : nat) (start out_file : pystr) (st : LoopState) :
  (run' fuel (initial start) = (Failed, st) →
   (∃ us u, gets (trace st) = us ++ [u] ∧ fetch_html u = None
            ∧ Forall (fun v => fetch_html v ≠ None) us)
   ∧ scrape_all_pages fetch_html read_html soup_anchors fuel start = HTTPError
   ∧ main fetch_html read_html soup_anchors fuel start out_file = HTTPError)
  ∧ (run' fuel (initial start) = (Finished, st) →
     Forall (fun v => fetch_html v ≠ None) (gets (trace st))).
Proof.
  pose proof (run_fetched fuel (initial start) (Forall_nil_2 _)) as H.
  split; intros Hrun; rewrite Hrun in H; [|done].
  split; [done|]. unfold main, scrape_all_pages. by rewrite Hrun.
Qed.


(** X11: with the empty string as start URL the loop does not run: no
    page is fetched, [scrape_all_pages] returns the empty frame and [main]
    reports that no data was found and returns 1. *)
Theorem X11_empty_start_url (fuel : nat) (out_file : pystr) :
  run' (S fuel) (initial []) = (Finished, initial [])
  ∧ scrape_all_pages fetch_html read_html soup_anchors (S fuel) []
    = Returned empty_frame
  ∧ main fetch_html read_html soup_anchors (S fuel) [] out_file
    = Returned (1%Z, [Stderr no_data_message]).
Proof.
  assert (H : run' (S fuel) (initial []) = (Finished, initial [])) by done.
  split; [done|]. unfold main, scrape_all_pages. rewrite H. done.
Qed.

Lemma linked_snoc (us : list pystr) (u : pystr) :
  linked fetch_html soup_anchors us →
  (∀ w, last us = Some w → next' w = Some u) →
  linked fetch_html soup_anchors (us ++ [u]).
Proof.
  intros Hl Hlast i a b Ha Hb.
  destruct (decide (S i < length us)) as [Hlt|Hge].
  - rewrite lookup_app_l in Ha by lia. rewrite lookup_app_l in Hb by lia. eauto.
  - pose proof (lookup_lt_Some _ _ _ Hb) as Hlen. rewrite length_app in Hlen.
    simpl in Hlen. assert (S i = length us) as Hi by lia.
    rewrite lookup_app_l in Ha by lia.
    rewrite lookup_app_r in Hb by lia.
    replace (S i - length us) with 0 in Hb by lia. injection Hb as <-.
    apply Hlast. rewrite last_lookup. by replace (pred (length us)) with i by lia.
Qed.

Lemma run_linked (fuel : nat) (st : LoopState) :
  linked fetch_html soup_anchors (gets (trace st)) →
  (∀ w, last (gets (trace st)) = Some w → url st = next' w) →
  linked fetch_html soup_anchors (gets (trace (snd (run' fuel st)))).
Proof.
  revert st. induction fuel as [|fuel IH]; intros st Hl Hurl; [done|].
  cbn [run]. pose proof (iterate_cases st) as Hit.
  destruct (iterate' st) as [st'| |st'].
  - destruct Hit as (u & html & Hcond & Hfetch & _ & Hurl' & Htr).
    apply loop_cond_Some in Hcond as (Hu & _).
    apply IH; rewrite Htr, gets_snoc.
    + apply linked_snoc; [done|]. intros w Hw. by rewrite <- (Hurl w Hw).
    + intros w. rewrite last_snoc. intros [= <-].
      unfold next_of. by rewrite Hfetch.
  - done.
  - destruct Hit as (u & Hcond & _ & _ & Htr).
    apply loop_cond_Some in Hcond as (Hu & _).
    cbn [snd]. rewrite Htr, gets_snoc.
    apply linked_snoc; [done|]. intros w Hw. by rewrite <- (Hurl w Hw).
Qed.

(** X12: the loop follows the links.  Every page it fetches after the
    first is the URL that the detector returned on the page fetched just
    before it, resolved against the URL of that page. *)
Theorem X12_fetches_follow_links (fuel : nat) (start : pystr) :
  linked fetch_html soup_anchors
         (gets (trace (snd (run' fuel (initial start))))).
Proof. apply run_linked; [by intros i u v ? | done]. Qed.

End LoopMore.

Lemma X8_loop_terminates_on_finite_site_witness :
  let U : gset pystr := {[Site.url1; Site.url2]} in
  (∀ u html v, Site.fetch_html u = Some html →
               find_next_page_url Site.soup_anchors html u = Some v → v ∈ U)
  ∧ size U + 2 ≤ 9
  ∧ fst (run Site.fetch_html Site.read_html Site.soup_anchors 9
             (initial Site.url1)) ≠ Running.
Proof.
  intros U.
  assert (H1 : ∀ u html v, Site.fetch_html u = Some html →
                 find_next_page_url Site.soup_anchors html u = Some v → v ∈ U).
  { intros u html v. unfold Site.fetch_html.
    case_bool_decide as E1; [|case_bool_decide as E2; [|done]];
      intros [= <-]; subst u.
    - assert (Hn : find_next_page_url Site.soup_anchors Site.html1 Site.url1
                   = Some Site.url2) by (vm_compute; reflexivity).
      rewrite Hn. intros [= <-]. unfold U. set_solver.
    - assert (Hn : find_next_page_url Site.soup_anchors Site.html2 Site.url2
                   = Some Site.url1) by (vm_compute; reflexivity).
      rewrite Hn. intros [= <-]. unfold U. set_solver. }
  assert (H2 : size U + 2 ≤ 9).
  { unfold U. rewrite size_union, !size_singleton; [lia|].
    apply disjoint_singleton_l. intros E%elem_of_singleton.
    vm_compute in E. discriminate. }
  split; [exact H1|]. split; [exact H2|].
  exact (proj1 (X8_loop_terminates_on_finite_site Site.fetch_html Site.read_html
                  Site.soup_anchors U Site.url1 9 H1 H2)).
Defined.

Lemma X9_fetch_failure_aborts_witness :
  let run1 := run Site.fetch_first_only Site.read_html Site.soup_anchors in
  run1 7 (initial Site.url1) = (Failed, snd (run1 7 (initial Site.url1)))
  ∧ gets (trace (snd (run1 7 (initial Site.url1)))) = [Site.url1; Site.url2]
  ∧ main Site.fetch_first_only Site.read_html Site.soup_anchors 7 Site.url1
         (py "out.csv") = HTTPError.
Proof.
  intros run1.
  assert (H : run1 7 (initial Site.url1)
              = (Failed, snd (run1 7 (initial Site.url1)))).
  { apply injective_projections; [vm_compute; reflexivity | reflexivity]. }
  split; [exact H|]. split; [vm_compute; reflexivity|].
  exact (proj2 (proj2 (proj1 (X9_fetch_failure_aborts Site.fetch_first_only
    Site.read_html Site.soup_anchors 7 Site.url1 (py "out.csv") _) H))).
Defined.

(** ** Frames, further *)

Lemma col_index_lookup (c : pystr) (cols : list pystr) (i : nat) :
  col_index c cols = Some i → cols !! i = Some c.
Proof.
  revert i. induction cols as [|c' cols IH]; intros i; simpl; [done|].
  case_bool_decide as Heq.
  - intros [= <-]. by subst.
  - destruct (col_index c cols) as [j|]; simpl; [|done].
    intros [= <-]. by apply IH.
Qed.

Lemma col_index_app_r (c : pystr) (cols more : list pystr) :
  c ∉ cols →
  col_index c (cols ++ more) = (fun j => length cols + j) <$> col_index c more.
Proof.
  induction cols as [|c' cols IH]; intros Hc; simpl.
  - by destruct (col_index c more).
  - apply not_elem_of_cons in Hc as [Hne Hc].
    rewrite bool_decide_eq_false_2 by done. rewrite IH by done.
    by destruct (col_index c more).
Qed.

Lemma get_cell_alter_ne (f : cell → cell) (cols : list pystr) (i : nat)
      (r : list cell) (c : pystr) :
  col_index Name cols = Some i → c ≠ Name →
  get_cell cols (alter f i r) c = get_cell cols r c.
Proof.
  intros Hi Hne. unfold get_cell.
  destruct (col_index c cols) as [j|] eqn:Hj; [|done].
  rewrite list_lookup_alter_ne; [done|]. intros <-.
  apply col_index_lookup in Hi, Hj. congruence.
Qed.

Lemma get_cell_padding (cols new : list pystr) (r : list cell) (x : cell)
      (c : pystr) :
  c ∉ cols → c ∈ new → length r = length cols →
  get_cell (cols ++ new) (r ++ replicate (length new) x) c = x.
Proof.
  intros Hc Hnew Hlen. unfold get_cell. rewrite col_index_app_r by done.
  destruct (col_index_Some _ _ Hnew) as (j & -> & Hj). cbn.
  apply lookup_lt_Some in Hj.
  rewrite lookup_app_r by lia.
  replace (length cols + j - length r) with j by lia.
  by rewrite lookup_replicate_2.
Qed.

Lemma normalize_name_column_rows (df : DataFrame) :
  columns (normalize_name_column df) = columns df
  ∧ length (rows (normalize_name_column df)) = length (rows df).
Proof.
  unfold normalize_name_column.
  destruct (col_index Name (columns df)); [|done].
  cbn [columns rows]. by rewrite length_map.
Qed.

Lemma select_and_order_columns_len (df : DataFrame) :
  df_len (select_and_order_columns df) = df_len df.
Proof.
  unfold select_and_order_columns, select_columns, df_len. cbn [rows].
  rewrite length_map.
  destruct (normalize_name_column_rows (ensure_columns df)) as [_ ->].
  destruct (ensure_columns_rows df) as (new & _ & ->). by rewrite length_map.
Qed.

(** X13: whatever frame it is given, [select_and_order_columns] returns a
    frame whose columns are the 17 requested columns in their order, with
    as many rows as the frame it was given, each row of 17 values. *)
Theorem X13_projection_shape (df : DataFrame) :
  let out := select_and_order_columns df in
  columns out = REQUESTED_COLUMNS
  ∧ length (columns out) = 17
  ∧ df_len out = df_len df
  ∧ rectangular out.
Proof.
  intros out. split; [done|]. split; [done|].
  split; [apply select_and_order_columns_len|].
  unfold out, select_and_order_columns, select_columns, rectangular.
  cbn [columns rows]. rewrite map_fmap.
  apply Forall_fmap, Forall_forall. intros r _. unfold compose, reindex_row.
  by rewrite length_map.
Qed.

(** X14: in the frame that [select_and_order_columns] returns, a
    requested column other than [Name] holds in every row the value the
    row had in that column if the given frame has the column, and the empty
    string if it has not; columns that are not requested are gone. *)
Theorem X14_projection_values (df : DataFrame) (k : nat) (r : list cell) :
  rectangular df →
  rows df !! k = Some r →
  ∃ r', rows (select_and_order_columns df) !! k = Some r'
        ∧ ∀ c, c ∈ REQUESTED_COLUMNS → c ≠ Name →
               get_cell REQUESTED_COLUMNS r' c
               = if bool_decide (c ∈ columns df)
                 then get_cell (columns df) r c else Txt [].
Proof.
  intros Hrect Hk.
  assert (Hlen : length r = length (columns df)).
  { unfold rectangular in Hrect. rewrite Forall_forall in Hrect.
    apply Hrect. by apply list_elem_of_lookup_2 in Hk. }
  destruct (ensure_columns_rows df) as (new & Hcols & Hrows).
  destruct (ensure_columns_spec df) as [_ Hreq].
  assert (Hname : Name ∈ columns df ++ new).
  { rewrite <- Hcols. apply Hreq.
    apply (bool_decide_unpack (Name ∈ REQUESTED_COLUMNS)). vm_compute. exact I. }
  destruct (col_index_Some _ _ Hname) as (i & Hi & _).
  set (r_e := r ++ replicate (length new) (Txt [])).
  exists (reindex_row (columns df ++ new) (alter clean_name i r_e)
                      REQUESTED_COLUMNS).
  split.
  { unfold select_and_order_columns, select_columns, normalize_name_column.
    rewrite Hcols, Hi. cbn [columns rows]. rewrite Hrows.
    rewrite !map_fmap, !list_lookup_fmap, Hk. done. }
  intros c Hc Hne. unfold reindex_row. rewrite get_cell_map by done.
  rewrite get_cell_alter_ne by done. unfold r_e. case_bool_decide as Hin.
  - by apply get_cell_app_l.
  - apply get_cell_padding; [done| |done].
    specialize (Hreq c Hc). rewrite Hcols in Hreq.
    apply elem_of_app in Hreq as [?|?]; done.
Qed.

Lemma X14_projection_values_witness :
  let df := merge_frames [strip_columns Site.results1; Site.results2] in
  let r := [Int 3; Int 19; Site.t " Carol   White"; NaN; NaN] in
  rectangular df
  ∧ rows df !! 2 = Some r
  ∧ ∃ r', rows (select_and_order_columns df) !! 2 = Some r'
          ∧ get_cell REQUESTED_COLUMNS r' (py "No") = Int 19
          ∧ get_cell REQUESTED_COLUMNS r' (py "City") = Txt [].
Proof.
  intros df r.
  assert (H1 : rectangular df).
  { apply (bool_decide_unpack (rectangular df)). vm_compute. exact I. }
  assert (H2 : rows df !! 2 = Some r) by (vm_compute; reflexivity).
  split; [exact H1|]. split; [exact H2|].
  destruct (X14_projection_values df 2 r H1 H2) as (r' & Hr' & Hval).
  exists r'. split; [exact Hr'|]. split.
  - rewrite Hval.
    + vm_compute. reflexivity.
    + apply (bool_decide_unpack (py "No" ∈ REQUESTED_COLUMNS)).
      vm_compute. exact I.
    + vm_compute. discriminate.
  - rewrite Hval.
    + vm_compute. reflexivity.
    + apply (bool_decide_unpack (py "City" ∈ REQUESTED_COLUMNS)).
      vm_compute. exact I.
    + vm_compute. discriminate.
Defined.

Lemma alter_idem {A} (f : A → A) (i : nat) (l : list A) :
  (∀ x, f (f x) = f x) → alter f i (alter f i l) = alter f i l.
Proof.
  intros Hf. revert i. induction l as [|y l IH]; intros i; [done|].
  destruct i as [|i]; simpl; f_equal; [apply Hf | apply IH].
Qed.

(** X15: [normalize_name_column] keeps the columns and the number of rows;
    it returns a frame without [Name] column as it is, and applying it a
    second time changes nothing. *)
Theorem X15_normalize_name_column_stable (df : DataFrame) :
  columns (normalize_name_column df) = columns df
  ∧ df_len (normalize_name_column df) = df_len df
  ∧ (Name ∉ columns df → normalize_name_column df = df)
  ∧ normalize_name_column (normalize_name_column df) = normalize_name_column df.
Proof.
  destruct (normalize_name_column_rows df) as [Hc Hr].
  split; [done|]. split; [done|]. split.
  - intros H. unfold normalize_name_column. by rewrite col_index_None.
  - unfold normalize_name_column.
    destruct (col_index Name (columns df)) as [i|] eqn:Hi;
      cbn [columns rows]; rewrite Hi; [|done].
    f_equal. rewrite map_map. apply map_ext. intros r.
    apply alter_idem, clean_name_idem.
Qed.

Lemma drop_while_decomp_all {A} (p : A → bool) (l : list A) :
  ∃ pre, l = pre ++ drop_while p l ∧ Forall (fun x => p x = true) pre.
Proof.
  induction l as [|x l (pre & IH & Hall)]; simpl; [by exists []|].
  destruct (p x) eqn:Hx; [|by exists []].
  exists (x :: pre). split; [simpl; by f_equal | by constructor].
Qed.

Lemma split_head_rest (s : pystr) :
  ∃ rest, s = split_head s ++ rest
          ∧ match rest with [] => True | x :: _ => py_isspace x = true end.
Proof.
  induction s as [|a s IH]; [by exists []|].
  destruct s as [|b s]; [by exists []|]. rewrite split_head_cons2.
  destruct (py_isspace a && py_isspace b) eqn:Hab.
  - exists (a :: b :: s). split; [done|]. by apply andb_true_iff in Hab as [? _].
  - destruct IH as (rest & Heq & Hrest). exists rest.
    split; [simpl; by f_equal | done].
Qed.

(** X16: cleaning a name never alters the characters it keeps: the new
    value is a contiguous part of the old value as text, what is removed
    in front of it is whitespace only, and what is removed behind it is
    empty or starts with a whitespace character. *)
Theorem X16_clean_name_keeps_a_segment (c : cell) :
  ∃ v pre post,
    clean_name c = Txt v
    ∧ astype_str c = pre ++ v ++ post
    ∧ Forall (fun x => py_isspace x = true) pre
    ∧ match post with [] => True | x :: _ => py_isspace x = true end.
Proof.
  set (s := astype_str c).
  destruct (split_head_rest s) as (rest & Hs & Hrest).
  destruct (drop_while_decomp_all py_isspace (split_head s)) as (pre & Hpre & Hws).
  fold (lstrip (split_head s)) in Hpre.
  destruct (drop_while_decomp_all py_isspace (rev (lstrip (split_head s))))
    as (q & Hq & Hwsq).
  exists (strip (split_head s)), pre, (rev q ++ rest).
  split; [done|]. split; [|split; [done|]].
  - assert (HL : lstrip (split_head s) = strip (split_head s) ++ rev q).
    { unfold strip, rstrip. by rewrite <- rev_app_distr, <- Hq, rev_involutive. }
    etrans; [exact Hs|]. rewrite !app_assoc. f_equal.
    rewrite <- app_assoc, <- HL. exact Hpre.
  - destruct (rev q) as [|x t] eqn:Hrq; [done|]. cbn.
    rewrite Forall_forall in Hwsq. apply Hwsq.
    apply list_elem_of_In, in_rev. rewrite Hrq. by left.
Qed.

Lemma pd_concat_rectangular (frames : list DataFrame) :
  rectangular (pd_concat frames).
Proof.
  unfold rectangular, pd_concat. cbn [columns rows].
  apply Forall_forall. intros r Hr%list_elem_of_In.
  apply in_map_iff in Hr as (r0 & <- & _). by rewrite length_map.
Qed.

Lemma merge_frames_rectangular (frames : list DataFrame) :
  rectangular (merge_frames frames).
Proof.
  pose proof (pd_concat_rectangular frames) as H. unfold merge_frames.
  destruct (nonempty (dedup_cols (pd_concat frames))); [|done].
  unfold rectangular, drop_duplicates in *. cbn [columns rows].
  rewrite Forall_forall in H. apply Forall_forall. intros r Hr. apply H.
  eapply elem_of_sublist; [exact Hr | apply drop_masked_sublist].
Qed.





Lemma add_new_columns_fresh (acc cols : list pystr) :
  NoDup (acc ++ cols) → add_new_columns acc cols = acc ++ cols.
Proof.
  unfold add_new_columns. revert acc.
  induction cols as [|c cols IH]; intros acc Hnd; simpl.
  - by rewrite app_nil_r.
  - assert (str_in c acc = false) as ->.
    { destruct (str_in c acc) eqn:Hin; [|done]. apply str_in_spec in Hin.
      apply NoDup_app in Hnd as (_ & Hdisj & _). exfalso.
      apply (Hdisj c Hin). left. }
    rewrite IH; [by rewrite <- app_assoc|]. by rewrite <- app_assoc.
Qed.

Lemma add_new_columns_present (acc cols : list pystr) :
  (∀ c, c ∈ cols → c ∈ acc) → add_new_columns acc cols = acc.
Proof.
  unfold add_new_columns. induction cols as [|c cols IH]; intros H; simpl;
    [done|].
  assert (str_in c acc = true) as ->.
  { apply str_in_spec, H. left. }
  apply IH. intros c' Hc'. apply H. by right.
Qed.

Lemma map_zip_with_self {A B C} (P : A → B → C) (g : A → B) (l : list A) :
  List.map (fun c => P c (g c)) l = zip_with P l (List.map g l).
Proof. induction l as [|x l IH]; simpl; [done|]. by rewrite IH. Qed.

Lemma union_columns_same (frames : list DataFrame) (cols : list pystr) :
  frames ≠ [] →
  NoDup cols →
  Forall (fun f => columns f = cols) frames →
  union_columns frames = cols.
Proof.
  intros Hne Hnd Hall. unfold union_columns.
  destruct frames as [|f fs]; [done|].
  apply Forall_cons in Hall as [Hf Hfs]. cbn [fold_left].
  rewrite Hf, (add_new_columns_fresh [] cols) by done. cbn [app].
  clear Hne Hf. induction Hfs as [|g fs Hg _ IH]; [done|].
  cbn [fold_left]. rewrite Hg, add_new_columns_present by done. done.
Qed.

Lemma reindexed_same (frames : list DataFrame) (cols : list pystr) :
  frames ≠ [] →
  NoDup cols →
  Forall (fun f => columns f = cols ∧ rectangular f) frames →
  reindexed frames = List.concat (List.map rows frames).
Proof.
  intros Hne Hnd Hall. unfold reindexed.
  rewrite (union_columns_same frames cols Hne Hnd)
    by (eapply Forall_impl; [exact Hall|]; by intros f [? _]).
  clear Hne. induction Hall as [|f fs [Hf Hrect] _ IH]; [done|].
  cbn [flat_map List.map List.concat]. rewrite IH. f_equal.
  apply map_fixed. intros r Hr. rewrite Hf. apply reindex_self; [done|].
  unfold rectangular in Hrect. rewrite Forall_forall in Hrect.
  rewrite <- Hf. by apply Hrect.
Qed.

Lemma astype_row (cols : list pystr) (d : pystr → dtype) (r : list cell) :
  NoDup cols → length r = length cols →
  List.map (fun c => astype (d c) (get_cell cols r c)) cols
  = zip_with astype (List.map d cols) r.
Proof.
  intros Hnd Hlen.
  rewrite (map_zip_with_self (fun c v => astype (d c) v) (get_cell cols r)).
  fold (reindex_row cols r cols). rewrite reindex_self by done.
  by rewrite map_fmap, zip_with_fmap_l.
Qed.

Lemma elem_of_values_of (frames : list DataFrame) (c : pystr) (v : cell) :
  v ∈ values_of frames c
  ↔ ∃ f r, f ∈ frames ∧ r ∈ rows f ∧ v = get_cell (columns f) r c.
Proof.
  unfold values_of. rewrite list_elem_of_In, in_flat_map. split.
  - intros (f & Hf & (r & Hr & Hin)%in_map_iff).
    exists f, r. by rewrite !list_elem_of_In.
  - intros (f & r & Hf & Hr & ->). exists f.
    split; [by apply list_elem_of_In|]. apply in_map_iff. exists r.
    split; [done | by apply list_elem_of_In].
Qed.

(** X19: pages with the same header are appended.  When all accumulated
    tables have the same duplicate-free list of labels and one value per
    label in each row, the concatenated frame has exactly these labels in
    this order, and its rows are the rows of the tables, one table after
    the other, each value at its place and in the dtype of its column.
    The rows are the rows of the tables unchanged unless some column
    holds an integer together with a float or a missing value and no
    string. *)
Theorem X19_concat_same_header (frames : list DataFrame) (cols : list pystr) :
  frames ≠ [] →
  NoDup cols →
  Forall (fun f => columns f = cols ∧ rectangular f) frames →
  let dtypes := List.map (fun c => dtype_of (values_of frames c)) cols in
  pd_concat frames
  = mkDF cols (List.map (zip_with astype dtypes)
                        (List.concat (List.map rows frames)))
  ∧ ((∀ c z, c ∈ cols → Int z ∈ values_of frames c →
             dtype_of (values_of frames c) ≠ float64) →
     pd_concat frames = mkDF cols (List.concat (List.map rows frames))).
Proof.
  intros Hne Hnd Hall dtypes.
  assert (Hu : union_columns frames = cols).
  { apply union_columns_same; [done..|].
    eapply Forall_impl; [exact Hall|]. by intros f [? _]. }
  assert (Hlen : ∀ r, r ∈ List.concat (List.map rows frames) →
                      ∃ f, f ∈ frames ∧ r ∈ rows f ∧ length r = length cols).
  { intros r (rs & (f & <- & Hf)%in_map_iff & Hr)%list_elem_of_In%in_concat.
    apply list_elem_of_In in Hf, Hr. exists f. split; [done|]. split; [done|].
    rewrite Forall_forall in Hall. destruct (Hall f Hf) as [Hc Hrect].
    unfold rectangular in Hrect. rewrite Forall_forall in Hrect.
    rewrite <- Hc. by apply Hrect. }
  assert (Hcat : pd_concat frames
                 = mkDF cols (List.map (zip_with astype dtypes)
                                       (List.concat (List.map rows frames)))).
  { unfold pd_concat. rewrite (reindexed_same frames cols Hne Hnd Hall), Hu.
    f_equal. apply map_ext_in. intros r Hr%list_elem_of_In.
    destruct (Hlen r Hr) as (f & _ & _ & Hl).
    rewrite (astype_row cols (concat_dtype frames) r Hnd Hl). f_equal.
    unfold dtypes. apply map_ext_in. intros c Hc%list_elem_of_In.
    apply concat_dtype_values. by rewrite Hu. }
  split; [exact Hcat|]. intros Hsame. rewrite Hcat. f_equal.
  apply map_fixed. intros r Hr. destruct (Hlen r Hr) as (f & Hf & Hrf & Hl).
  unfold dtypes.
  rewrite <- (astype_row cols (fun c => dtype_of (values_of frames c)) r Hnd Hl).
  etrans; [|exact (reindex_self cols r Hnd Hl)]. unfold reindex_row.
  apply map_ext_in. intros c Hc%list_elem_of_In.
  destruct (get_cell cols r c) as [|s|z|x] eqn:Hv;
    [by destruct (dtype_of _) | by destruct (dtype_of _) | |
     by destruct (dtype_of _)].
  destruct (dtype_of (values_of frames c)) eqn:Hd; [done| |done].
  exfalso. apply (Hsame c z Hc); [|done].
  apply elem_of_values_of. exists f, r. split; [done|]. split; [done|].
  rewrite Forall_forall in Hall. destruct (Hall f Hf) as [-> _]. done.
Qed.

Lemma X19_concat_same_header_witness :
  let frames := [Site.results2; Site.results2] in
  frames ≠ []
  ∧ NoDup (columns Site.results2)
  ∧ Forall (fun f => columns f = columns Site.results2 ∧ rectangular f) frames
  ∧ pd_concat [Site.born; Site.born_blank]
    = mkDF (columns Site.born)
           [[Int 42; Site.t "Alice Smith"; Flt (py "1985.0")];
            [Int 19; Site.t "Carol White"; Flt (py "1990.0")];
            [Int 23; Site.t "Dan Brown"; NaN]]
  ∧ pd_concat frames
    = mkDF (columns Site.results2) (rows Site.results2 ++ rows Site.results2).
Proof.
  intros frames.
  assert (H1 : frames ≠ []) by discriminate.
  assert (H2 : NoDup (columns Site.results2)).
  { apply (bool_decide_unpack (NoDup (columns Site.results2))).
    vm_compute. exact I. }
  assert (H3 : Forall (fun f => columns f = columns Site.results2
                                ∧ rectangular f) frames).
  { assert (Hr : rectangular Site.results2).
    { apply (bool_decide_unpack (rectangular Site.results2)).
      vm_compute. exact I. }
    repeat constructor; exact Hr. }
  assert (G1 : [Site.born; Site.born_blank] ≠ []) by discriminate.
  assert (G2 : NoDup (columns Site.born)).
  { apply (bool_decide_unpack (NoDup (columns Site.born))).
    vm_compute. exact I. }
  assert (G3 : Forall (fun f => columns f = columns Site.born ∧ rectangular f)
                      [Site.born; Site.born_blank]).
  { repeat constructor. }
  split; [exact H1|]. split; [exact H2|]. split; [exact H3|]. split.
  - rewrite (proj1 (X19_concat_same_header _ _ G1 G2 G3)).
    vm_compute. reflexivity.
  - rewrite (proj2 (X19_concat_same_header frames _ H1 H2 H3)).
    + unfold frames. cbn [List.map List.concat]. by rewrite app_nil_r.
    + intros c z Hc _.
      unfold Site.results2 in Hc. cbn [columns] in Hc.
      repeat (apply elem_of_cons in Hc as [->|Hc]);
        [vm_compute; discriminate.. | by apply elem_of_nil in Hc].
Defined.

(** ** The whole run, further *)

(** X20: whenever [main] returns, it returns 0 or 1.  With 1 it has only
    printed the diagnostic line on standard error.  With 0 it has written
    exactly one file, to the given destination, and then printed the line
    with the number of rows of the written frame; the written frame has
    the 17 requested columns, at least one row, one value per column in
    every row, and every [Name] in it is a trimmed text without a run of
    two or more whitespace characters. *)
Theorem X20_main_outputs
    (fetch_html : pystr → option pystr)
    (read_html : pystr → option (list DataFrame))
    (soup_anchors : pystr → list Anchor)
    (fuel : nat) (args_url args_output : pystr)
    (code : Z) (outs : list output) :
  main fetch_html read_html soup_anchors fuel args_url args_output
  = Returned (code, outs) →
  (code = 1%Z ∧ outs = [Stderr no_data_message])
  ∨ (code = 0%Z
     ∧ ∃ df, outs = [WriteCsv df args_output;
                     Stdout (wrote_message (df_len df) args_output)]
             ∧ columns df = REQUESTED_COLUMNS
             ∧ 0 < df_len df
             ∧ rectangular df
             ∧ ∀ r, r ∈ rows df →
                    ∃ v, get_cell REQUESTED_COLUMNS r Name = Txt v
                         ∧ strip v = v ∧ ¬ ws_pair_in v).
Proof.
  unfold main.
  destruct (scrape_all_pages fetch_html read_html soup_anchors fuel args_url)
    as [df_all| |] eqn:Hscrape; [|done|done].
  destruct (df_empty df_all) eqn:Hempty; intros [= <- <-]; [by left|].
  right. split; [done|]. exists (select_and_order_columns df_all).
  split; [done|].
  assert (Hrect : rectangular df_all).
  { unfold scrape_all_pages in Hscrape.
    destruct (run fetch_html read_html soup_anchors fuel (initial args_url))
      as [[| |] st]; try done.
    destruct (nonempty (all_frames st)); injection Hscrape as <-.
    - apply merge_frames_rectangular.
    - constructor. }
  pose proof (select_and_order_columns_len df_all) as Hlen.
  destruct (select_and_order_columns_normal df_all Hrect) as (_ & Hr & Hnames).
  split; [done|]. split; [|done].
  rewrite Hlen. apply df_empty_false in Hempty as [Hrows _].
  unfold df_len. destruct (rows df_all); [done | simpl; lia].
Qed.

Lemma X20_main_outputs_witness :
  ∃ code outs,
    main Site.fetch_html Site.read_html Site.soup_anchors 7 Site.url1
         (py "out.csv") = Returned (code, outs)
    ∧ code = 0%Z
    ∧ ∃ df, outs = [WriteCsv df (py "out.csv");
                    Stdout (wrote_message (df_len df) (py "out.csv"))]
            ∧ columns df = REQUESTED_COLUMNS.
Proof.
  destruct (main Site.fetch_html Site.read_html Site.soup_anchors 7 Site.url1
                 (py "out.csv")) as [[code outs]| |] eqn:Hmain;
    [|vm_compute in Hmain; discriminate|vm_compute in Hmain; discriminate].
  exists code, outs. split; [reflexivity|].
  assert (Hcode : code = 0%Z).
  { vm_compute in Hmain. injection Hmain as <- _. reflexivity. }
  split; [exact Hcode|].
  destruct (X20_main_outputs _ _ _ _ _ _ _ _ Hmain)
    as [[H1 _]|(_ & df & Hout & Hc & _)].
  - rewrite H1 in Hcode. discriminate.
  - exists df. split; [exact Hout | exact Hc].
Defined.

(** X21: a page none of whose anchors has a target ([href] absent or
    empty) has no next page, whatever the [rel] values and the texts of
    its anchors. *)
Theorem X21_no_targets_no_next_page
    (soup_anchors : pystr → list Anchor) (html cur : pystr) :
  Forall (fun a => a_href a = None ∨ a_href a = Some []) (soup_anchors html) →
  find_next_page_url soup_anchors html cur = None.
Proof.
  intros Hall.
  assert (Hno : Forall (fun a => get_href a = None) (soup_anchors html)).
  { eapply Forall_impl; [exact Hall|]. intros a [H|H]; unfold get_href;
      by rewrite H. }
  apply find_next_page_url_None. split.
  - destruct (find_rel_next (soup_anchors html)) as [link|] eqn:Hf; [|done].
    cbn. apply find_some in Hf as [Hin _]. rewrite Forall_forall in Hno.
    by apply Hno, list_elem_of_In.
  - eapply Forall_impl; [exact Hno|]. intros a Ha. unfold link_by_text.
    by rewrite Ha, andb_false_r.
Qed.

Lemma X21_no_targets_no_next_page_witness :
  let soup := fun _ : pystr =>
                [mkA [py "next"] (Some []) (py "next");
                 mkA [] None (py ">>")] in
  Forall (fun a => a_href a = None ∨ a_href a = Some []) (soup [])
  ∧ find_next_page_url soup [] (py "http://h/r") = None.
Proof.
  intros soup.
  assert (H : Forall (fun a => a_href a = None ∨ a_href a = Some []) (soup [])).
  { unfold soup. constructor; [by right|]. constructor; [by left|].
    constructor. }
  split; [exact H|].
  exact (X21_no_targets_no_next_page soup [] (py "http://h/r") H).
Defined.

(** X22: a site of one page.  When the start URL is not empty, its page is
    fetched, the extractor finds a non-empty table on it and the detector
    finds no next page, then with two turns or more [scrape_all_pages]
    returns the de-duplicated table of that page (its labels trimmed),
    after one GET. *)
Theorem X22_single_page_site
    (fetch_html : pystr → option pystr)
    (read_html : pystr → option (list DataFrame))
    (soup_anchors : pystr → list Anchor)
    (start html : pystr) (df : DataFrame) (n : nat) :
  start ≠ [] →
  fetch_html start = Some html →
  extract_results_table read_html html = Some df →
  df_empty df = false →
  find_next_page_url soup_anchors html start = None →
  scrape_all_pages fetch_html read_html soup_anchors (S (S n)) start
  = Returned (merge_frames [strip_columns df])
  ∧ gets (trace (snd (run fetch_html read_html soup_anchors (S (S n))
                          (initial start)))) = [start].
Proof.
  intros Hne Hfetch Hext Hdf Hnext.
  assert (Hcond : loop_cond (initial start) = Some start).
  { unfold loop_cond. cbn [url initial visited].
    destruct start as [|c s]; [done|]. cbn [nonempty andb].
    rewrite bool_decide_eq_true_2; [done|]. apply not_elem_of_empty. }
  assert (Hrun : run fetch_html read_html soup_anchors (S (S n)) (initial start)
                 = (Finished,
                    mkState [strip_columns df] ({[start]} ∪ ∅) None
                            [Visit start; Get start])).
  { cbn [run]. unfold iterate at 1. rewrite Hcond. unfold loop_body.
    rewrite Hfetch, Hext, Hdf, Hnext. done. }
  unfold scrape_all_pages. rewrite Hrun. done.
Qed.

Lemma X22_single_page_site_witness :
  let soup := fun _ : pystr => @nil Anchor in
  Site.url2 ≠ []
  ∧ Site.fetch_html Site.url2 = Some Site.html2
  ∧ extract_results_table Site.read_html Site.html2 = Some Site.results2
  ∧ df_empty Site.results2 = false
  ∧ find_next_page_url soup Site.html2 Site.url2 = None
  ∧ scrape_all_pages Site.fetch_html Site.read_html soup 2 Site.url2
    = Returned (merge_frames [strip_columns Site.results2]).
Proof.
  intros soup.
  assert (H1 : Site.url2 ≠ []) by (vm_compute; discriminate).
  assert (H2 : Site.fetch_html Site.url2 = Some Site.html2)
    by (vm_compute; reflexivity).
  assert (H3 : extract_results_table Site.read_html Site.html2
               = Some Site.results2) by (vm_compute; reflexivity).
  assert (H4 : df_empty Site.results2 = false) by (vm_compute; reflexivity).
  assert (H5 : find_next_page_url soup Site.html2 Site.url2 = None)
    by reflexivity.
  split; [exact H1|]. split; [exact H2|]. split; [exact H3|].
  split; [exact H4|]. split; [exact H5|].
  exact (proj1 (X22_single_page_site Site.fetch_html Site.read_html soup
                  Site.url2 Site.html2 Site.results2 0 H1 H2 H3 H4 H5)).
Defined.
